(** * malrot/api: the [GET /v1/events] handler of [src/api.js]

    A shallow embedding of the request validation, the projection of the
    listed objects, the three filters and the final ranking, followed by the
    properties of the handler.

    Conventions of the embedding:
    - a JavaScript number is an IEEE 754 binary64 value, here [spec_float]
      with precision 53 and maximal exponent 1024;
    - a JavaScript string is a [string] of code units below 256; case
      conversion acts on the ASCII letters and leaves other units alone;
    - [req.query] is a finite map from parameter names to strings;
    - an absent property or an out-of-range array index is [undefined]. *)

From Stdlib Require Import ZArith String Ascii List Bool Lia.
From Stdlib Require Import Sorting.Sorted Sorting.Permutation.
From Stdlib Require Import Floats.SpecFloat.
From stdpp Require Import base option list strings gmap.

Local Open Scope string_scope.
Local Open Scope Z_scope.

(** ** JavaScript numbers, values and coercions *)

Module JS.

Definition number : Type := spec_float.

Definition prec : Z := 53.
Definition emax : Z := 1024.

Definition NaN : number := S754_nan.

(** An integer literal of the source, rounded to binary64. *)
Definition of_Z (z : Z) : number := binary_normalize prec emax z 0 false.

Definition add (x y : number) : number := SFadd prec emax x y.
Definition mul (x y : number) : number := SFmul prec emax x y.

(** [x < y] and [x <= y] on numbers: false as soon as one side is NaN. *)
Definition ltb (x y : number) : bool := SFltb x y.
Definition leb (x y : number) : bool := SFleb x y.

Definition is_nan (x : number) : bool :=
  match x with S754_nan => true | _ => false end.

(** ToIntegerOrInfinity on a number that is not NaN: the fraction is
    dropped, towards zero. *)
Definition trunc (x : number) : number :=
  match x with
  | S754_finite s m e =>
      if e <? 0 then
        match Z.shiftr (Zpos m) (- e) with
        | Zpos q => binary_normalize prec emax (if s then Zneg q else Zpos q) 0 false
        | _ => S754_zero false
        end
      else x
  | S754_zero _ => S754_zero false
  | _ => x
  end.


(** *** Strings *)

Definition is_upper (c : ascii) : bool :=
  let n := nat_of_ascii c in (65 <=? n)%nat && (n <=? 90)%nat.
Definition is_lower (c : ascii) : bool :=
  let n := nat_of_ascii c in (97 <=? n)%nat && (n <=? 122)%nat.
Definition is_letter (c : ascii) : bool := is_upper c || is_lower c.
Definition is_digit (c : ascii) : bool :=
  let n := nat_of_ascii c in (48 <=? n)%nat && (n <=? 57)%nat.

Definition upper_ascii (c : ascii) : ascii :=
  if is_lower c then ascii_of_nat (nat_of_ascii c - 32) else c.
Definition lower_ascii (c : ascii) : ascii :=
  if is_upper c then ascii_of_nat (nat_of_ascii c + 32) else c.

Fixpoint map_string (f : ascii -> ascii) (s : string) : string :=
  match s with
  | EmptyString => EmptyString
  | String c s' => String (f c) (map_string f s')
  end.

(** [s.toUpperCase()] and [s.toLowerCase()]. *)
Definition toUpperCase (s : string) : string := map_string upper_ascii s.
Definition toLowerCase (s : string) : string := map_string lower_ascii s.

Fixpoint exists_char (p : ascii -> bool) (s : string) : bool :=
  match s with
  | EmptyString => false
  | String c s' => p c || exists_char p s'
  end.

(** [s.includes(",")], for a one-character needle. *)
Definition includes_char (c : ascii) (s : string) : bool :=
  exists_char (Ascii.eqb c) s.

(** [/[a-zA-Z]/.test(s)]: some code unit of [s] is an ASCII letter. *)
Definition test_has_letter (s : string) : bool := exists_char is_letter s.

(** [s.split(sep)] for a one-character separator; the empty string splits
    into one empty piece. *)
Fixpoint split (sep : ascii) (s : string) : list string :=
  match s with
  | EmptyString => [EmptyString]
  | String c s' =>
      if Ascii.eqb c sep then EmptyString :: split sep s'
      else match split sep s' with
           | h :: t => String c h :: t
           | [] => [String c EmptyString]
           end
  end.

(** *** [Number(s)] on a string: the StringNumericLiteral grammar *)

Definition is_white_space (c : ascii) : bool :=
  let n := nat_of_ascii c in
  (n =? 9)%nat || (n =? 10)%nat || (n =? 11)%nat || (n =? 12)%nat
  || (n =? 13)%nat || (n =? 32)%nat.

Fixpoint trim_start (s : list ascii) : list ascii :=
  match s with
  | c :: s' => if is_white_space c then trim_start s' else s
  | [] => []
  end.

Definition trim (s : list ascii) : list ascii :=
  rev (trim_start (rev (trim_start s))).

Definition digit_value (c : ascii) : Z := Z.of_nat (nat_of_ascii c) - 48.

(** The value of a hexadecimal, octal or binary digit, if [c] is one of the
    given [base]. *)
Definition radix_digit (base : Z) (c : ascii) : option Z :=
  let n := Z.of_nat (nat_of_ascii c) in
  let v := if is_digit c then Some (n - 48)
           else if (97 <=? n) && (n <=? 102) then Some (n - 87)
           else if (65 <=? n) && (n <=? 70) then Some (n - 55)
           else None in
  match v with
  | Some d => if d <? base then Some d else None
  | None => None
  end.

(** A maximal run of decimal digits: its value continued from [acc], the
    number of digits read and the rest of the input. *)
Fixpoint read_digits (acc : Z) (n : nat) (s : list ascii) : Z * nat * list ascii :=
  match s with
  | c :: s' =>
      if is_digit c then read_digits (10 * acc + digit_value c) (S n) s'
      else (acc, n, s)
  | [] => (acc, n, s)
  end.

Fixpoint read_radix (base : Z) (acc : Z) (s : list ascii) : option Z :=
  match s with
  | c :: s' =>
      match radix_digit base c with
      | Some d => read_radix base (base * acc + d) s'
      | None => None
      end
  | [] => Some acc
  end.

(** The binary64 value nearest to [(-1)^sign * m * 10^e], ties to even. *)
Definition of_decimal (sign : bool) (m : Z) (e : Z) : number :=
  match m with
  | Zpos p =>
      if 0 <=? e then
        binary_normalize prec emax (if sign then - (m * 10 ^ e) else m * 10 ^ e) 0 false
      else
        SFdiv prec emax (S754_finite sign p 0)
              (S754_finite false (Z.to_pos (10 ^ (- e))) 0)
  | _ => S754_zero sign
  end.

(** ExponentPart, optional: the exponent, or [None] when the input is not
    an exponent part followed by the end of the string. *)
Definition read_exponent (s : list ascii) : option Z :=
  match s with
  | [] => Some 0
  | c :: s' =>
      if Ascii.eqb c "e" || Ascii.eqb c "E" then
        let '(esign, s'') :=
          match s' with
          | d :: t => if Ascii.eqb d "-" then (true, t)
                      else if Ascii.eqb d "+" then (false, t)
                      else (false, s')
          | [] => (false, s')
          end in
        match read_digits 0 0 s'' with
        | (_, O, _) => None
        | (v, _, []) => Some (if esign then - v else v)
        | _ => None
        end
      else None
  end.

(** StrUnsignedDecimalLiteral. *)
Definition read_unsigned_decimal (sign : bool) (s : list ascii) : number :=
  if String.eqb (string_of_list_ascii s) "Infinity" then S754_infinity sign
  else
    let '(ip, ni, s1) := read_digits 0 0 s in
    let '(m, nf, s2) :=
      match s1 with
      | c :: t => if Ascii.eqb c "." then read_digits ip 0 t else (ip, O, s1)
      | [] => (ip, O, s1)
      end in
    match (ni + nf)%nat with
    | O => NaN
    | _ => match read_exponent s2 with
           | Some e => of_decimal sign m (e - Z.of_nat nf)
           | None => NaN
           end
    end.

(** StrNumericLiteral: a non-decimal integer literal, or a signed decimal. *)
Definition read_numeric (s : list ascii) : number :=
  let radix (base : Z) (t : list ascii) : number :=
    match t with
    | [] => NaN
    | _ => match read_radix base 0 t with
           | Some v => of_Z v
           | None => NaN
           end
    end in
  match s with
  | "0"%char :: p :: t =>
      if Ascii.eqb p "x" || Ascii.eqb p "X" then radix 16 t
      else if Ascii.eqb p "o" || Ascii.eqb p "O" then radix 8 t
      else if Ascii.eqb p "b" || Ascii.eqb p "B" then radix 2 t
      else read_unsigned_decimal false s
  | "-"%char :: t => read_unsigned_decimal true t
  | "+"%char :: t => read_unsigned_decimal false t
  | _ => read_unsigned_decimal false s
  end.

(** [Number(s)] for a string [s]: ASCII white space is trimmed, the empty
    string is [+0], and anything outside the grammar is [NaN]. *)
Definition StringToNumber (s : string) : number :=
  match trim (list_ascii_of_string s) with
  | [] => S754_zero false
  | t => read_numeric t
  end.

(** *** Values: what an expression of the handler may evaluate to *)

Inductive value : Type :=
  | undefined
  | str (s : string)
  | num (n : number).

(** [array[i]]: [undefined] past the end. *)
Definition index {A : Type} (inj : A -> value) (array : list A) (i : nat) : value :=
  match array !! i with
  | Some x => inj x
  | None => undefined
  end.

(** [obj.prop] for a property that may be absent. *)
Definition prop {A : Type} (inj : A -> value) (field : option A) : value :=
  match field with
  | Some x => inj x
  | None => undefined
  end.

(** ToNumber, and the built-in [Number(v)]. *)
Definition ToNumber (v : value) : number :=
  match v with
  | undefined => NaN
  | str s => StringToNumber s
  | num n => n
  end.

Definition Number (v : value) : number := ToNumber v.

(** The global [isNaN(v)]: coerces, then tests. *)
Definition isNaN (v : value) : bool := is_nan (ToNumber v).

(** The relational operators: two strings are compared by code units,
    every other pair numerically after ToNumber. *)
Definition lt (a b : value) : bool :=
  match a, b with
  | str s, str t => String.ltb s t
  | _, _ => ltb (ToNumber a) (ToNumber b)
  end.

Definition le (a b : value) : bool :=
  match a, b with
  | str s, str t => String.leb s t
  | _, _ => leb (ToNumber a) (ToNumber b)
  end.

Definition gt (a b : value) : bool := lt b a.

(** Truthiness of a value in a condition. *)
Definition truthy (v : value) : bool :=
  match v with
  | undefined => false
  | str s => negb (String.eqb s "")
  | num n => match n with S754_zero _ | S754_nan => false | _ => true end
  end.

End JS.

(** ** The request, the validation errors and the response *)

(** [req.query]: parameter names to raw strings. *)
Abbreviation Query := (gmap string string).

(** [req.query.name] when the guard [if (req.query.name)] holds: the
    parameter is there and is not the empty string. *)
Definition param (query : Query) (name : string) : option string :=
  match query !! name with
  | Some s => if JS.truthy (JS.str s) then Some s else None
  | None => None
  end.

Record Error : Type := { code : string; message : string }.

(** [if (c) errors.push(e)], as the errors it adds. *)
Definition push_if (c : bool) (e : Error) : list Error :=
  if c then [e] else [].

Definition org_not_unique : Error :=
  {| code := "wrong_org_param"; message := "Org must be a unique value" |}.
Definition org_not_lowercase : Error :=
  {| code := "wrong_org_param"; message := "Org must be in lowercase" |}.

Definition around_not_3_numbers : Error :=
  {| code := "wrong_around_param";
     message := "Around param must be a list of 3 numbers, separated by commas" |}.
Definition around_longitude : Error :=
  {| code := "wrong_around_param";
     message := "Longitude must be between -180 (inclusive) and 180 (exclusive)" |}.
Definition around_latitude : Error :=
  {| code := "wrong_around_param";
     message := "Latitude must be between -90 and 90" |}.
Definition around_distance : Error :=
  {| code := "wrong_around_param";
     message := "Distance must be greater than 0" |}.

Definition country_not_uppercase (c : string) : Error :=
  {| code := "wrong_country_param/" +:+ c;
     message := "ISO 3166-1 alpha-2 country code must be in uppercase" |}.
Definition country_not_letters (c : string) : Error :=
  {| code := "wrong_country_param/" +:+ c;
     message := "ISO 3166-1 alpha-2 country code must be only letters" |}.
Definition country_not_2_long (c : string) : Error :=
  {| code := "wrong_country_param/" +:+ c;
     message := "ISO 3166-1 alpha-2 country code must be 2-letter long" |}.

Definition updated_at_not_number : Error :=
  {| code := "wrong_updated_at_param"; message := "Updated_at must be a number" |}.
Definition updated_at_negative : Error :=
  {| code := "wrong_updated_at_param";
     message := "Updated_at must be greater than 0" |}.

(** The numeric literals of the checks. *)
Definition lit (z : Z) : JS.value := JS.num (JS.of_Z z).

(** *** Check of [org] *)
Definition check_org (query : Query) : list Error :=
  match param query "org" with
  | Some org =>
      push_if (JS.includes_char "," org) org_not_unique
      ++ push_if (negb (String.eqb org (JS.toLowerCase org))) org_not_lowercase
  | None => []
  end.

(** *** Check of [around]

    [around] is the list of the tokens converted by [Number]; the four
    conditions are evaluated one after the other, none guarding the next. *)
Definition around_numbers (s : string) : list JS.number :=
  map (fun i => JS.Number (JS.str i)) (JS.split "," s).

Definition check_around_numbers (around : list JS.number) : list Error :=
  let at_ := JS.index JS.num around in
  push_if (JS.isNaN (at_ 0%nat) || JS.isNaN (at_ 1%nat) || JS.isNaN (at_ 2%nat)
           || negb (length around =? 3)%nat) around_not_3_numbers
  ++ push_if (JS.le (at_ 0%nat) (lit (-180)) || JS.gt (at_ 0%nat) (lit 180))
       around_longitude
  ++ push_if (JS.lt (at_ 1%nat) (lit (-90)) || JS.gt (at_ 1%nat) (lit 90))
       around_latitude
  ++ push_if (JS.lt (at_ 2%nat) (lit 0)) around_distance.

Definition check_around (query : Query) : list Error :=
  match param query "around" with
  | Some s => check_around_numbers (around_numbers s)
  | None => []
  end.

(** *** Check of [country]: the three rules, for each code in turn *)
Definition check_country_code (c : string) : list Error :=
  push_if (negb (String.eqb c (JS.toUpperCase c))) (country_not_uppercase c)
  ++ push_if (Bool.eqb (JS.test_has_letter c) false) (country_not_letters c)
  ++ push_if (negb (String.length c =? 2)%nat) (country_not_2_long c).

Definition check_country (query : Query) : list Error :=
  match param query "country" with
  | Some s => flat_map check_country_code (JS.split "," s)
  | None => []
  end.

(** *** Check of [updated_at] *)
Definition check_updated_at (query : Query) : list Error :=
  match param query "updated_at" with
  | Some s =>
      let updated_at := JS.num (JS.Number (JS.str s)) in
      push_if (JS.isNaN updated_at) updated_at_not_number
      ++ push_if (JS.lt updated_at (lit 0)) updated_at_negative
  | None => []
  end.

(** The content of [errors] when the handler reaches its test
    [errors.length > 0]. *)
Definition validate (query : Query) : list Error :=
  check_org query ++ check_around query ++ check_country query
  ++ check_updated_at query.

(** ** The date-fns functions of the projection

    A [Date] holds its time value: the milliseconds elapsed since
    1970-01-01T00:00:00Z, or NaN for an Invalid Date. *)

Module DateFns.

Record Date : Type := { time_value : JS.number }.

Definition Invalid_Date : Date := {| time_value := JS.NaN |}.

(** [getTime(date)]: the time value of the date, in milliseconds. *)
Definition getTime (date : Date) : JS.number := time_value date.


(** [new Date(time)]: TimeClip of the given time value. *)
Definition new_Date (time : JS.number) : Date :=
  match time with
  | S754_nan | S754_infinity _ => Invalid_Date
  | _ =>
      if JS.ltb (JS.of_Z 8640000000000000) (SFabs time) then Invalid_Date
      else {| time_value := JS.trunc time |}
  end.

(** Days from 1970-01-01 to the given day of the proleptic Gregorian
    calendar. *)
Definition days_from_civil (year month day : Z) : Z :=
  let y := if month <=? 2 then year - 1 else year in
  let era := y / 400 in
  let yoe := y - era * 400 in
  let mp := (month + 9) mod 12 in
  let doy := (153 * mp + 2) / 5 + day - 1 in
  let doe := yoe * 365 + yoe / 4 - yoe / 100 + doy in
  era * 146097 + doe - 719468.

Definition isLeapYearIndex (year : Z) : bool :=
  (year mod 400 =? 0) || ((year mod 4 =? 0) && negb (year mod 100 =? 0)).

Definition days_in_month (year month : Z) : Z :=
  if month =? 2 then (if isLeapYearIndex year then 29 else 28)
  else if (month =? 4) || (month =? 6) || (month =? 9) || (month =? 11) then 30
  else 31.

Definition validateDate (year month day : Z) : bool :=
  (1 <=? month) && (month <=? 12) && (1 <=? day)
  && (day <=? days_in_month year month).

Definition validateTime (hours minutes : Z) (seconds : JS.number) : bool :=
  if hours =? 24 then (minutes =? 0) && SFeqb seconds (JS.of_Z 0)
  else JS.leb (JS.of_Z 0) seconds && JS.ltb seconds (JS.of_Z 60)
       && (minutes <? 60) && (hours <? 25).

(** Exactly [n] decimal digits at the head of the input. *)
Definition read_fixed (n : nat) (s : list ascii) : option (Z * list ascii) :=
  let d := take n s in
  if (length d =? n)%nat && forallb JS.is_digit d
  then Some (fold_left (fun acc c => 10 * acc + JS.digit_value c) d 0, drop n s)
  else None.

Definition expect (c : ascii) (s : list ascii) : option (list ascii) :=
  match s with
  | x :: t => if Ascii.eqb x c then Some t else None
  | [] => None
  end.

(** The seconds of the time part, with their fraction, up to the [Z]
    that must end the string. *)
Definition read_seconds (s : list ascii) : option JS.number :=
  '(_, s1) ← read_fixed 2 s;
  let '(_, _, s2) :=
    match s1 with
    | c :: t => if Ascii.eqb c "." then JS.read_digits 0 0 t else (0, O, s1)
    | [] => (0, O, s1)
    end in
  match s2 with
  | [z] =>
      if Ascii.eqb z "Z"
      then Some (JS.StringToNumber
                   (string_of_list_ascii (take (length s - 1) s)))
      else None
  | _ => None
  end.

(** [parseISO(argument)] on the complete extended form with the UTC
    designator, [YYYY-MM-DDThh:mm:ss[.fff]Z], in which the object store
    writes [timeCreated] and [updated]: the milliseconds of the day at
    midnight, plus those of the time. Any other form is outside this
    model, which answers Invalid Date for it. *)
Definition parseISO_parts (s : list ascii) : option Date :=
  '(year, s) ← read_fixed 4 s;
  s ← expect "-" s;
  '(month, s) ← read_fixed 2 s;
  s ← expect "-" s;
  '(day, s) ← read_fixed 2 s;
  s ← expect "T" s;
  '(hours, s) ← read_fixed 2 s;
  s ← expect ":" s;
  '(minutes, s) ← read_fixed 2 s;
  s ← expect ":" s;
  seconds ← read_seconds s;
  if validateDate year month day && validateTime hours minutes seconds then
    let timestamp := JS.of_Z (days_from_civil year month day * 86400000) in
    let time :=
      JS.add (JS.add (JS.mul (JS.of_Z hours) (JS.of_Z 3600000))
                     (JS.mul (JS.of_Z minutes) (JS.of_Z 60000)))
             (JS.mul seconds (JS.of_Z 1000)) in
    let offset := JS.of_Z 0 in
    Some (new_Date (JS.add (JS.add timestamp time) offset))
  else None.

Definition parseISO (argument : string) : Date :=
  match parseISO_parts (list_ascii_of_string argument) with
  | Some date => date
  | None => Invalid_Date
  end.

End DateFns.

(** ** lodash's [sortBy]

    [_.sortBy(collection, [key])] pairs every element with its criterion
    and its index, sorts the pairs with [compareMultiple] and returns the
    elements. The values compared here are [undefined], strings and
    numbers. *)

Module Lodash.

(** [value !== other]. *)
Definition strict_ne (value other : JS.value) : bool :=
  match value, other with
  | JS.undefined, JS.undefined => false
  | JS.str s, JS.str t => negb (String.eqb s t)
  | JS.num x, JS.num y => negb (SFeqb x y)
  | _, _ => true
  end.

Definition isDefined (v : JS.value) : bool :=
  match v with JS.undefined => false | _ => true end.

(** [v === v]: false for NaN only. *)
Definition isReflexive (v : JS.value) : bool := negb (strict_ne v v).

Definition compareAscending (value other : JS.value) : Z :=
  if strict_ne value other then
    if JS.gt value other
       || (negb (isDefined value) && isReflexive other)
       || negb (isReflexive value)
    then 1
    else if JS.lt value other
            || (negb (isDefined other) && isReflexive value)
            || negb (isReflexive other)
         then -1
         else 0
  else 0.

Record entry (A : Type) : Type :=
  { criteria : JS.value; index : nat; value : A }.
Arguments criteria {A} _.
Arguments index {A} _.
Arguments value {A} _.
Arguments Build_entry {A} _ _ _.

(** One criterion, no explicit order: the criteria decide, and the
    indices break a tie. *)
Definition compareMultiple {A : Type} (object other : entry A) : Z :=
  let result := compareAscending (criteria object) (criteria other) in
  if negb (result =? 0) then result
  else Z.of_nat (index object) - Z.of_nat (index other).

(** [array.sort(comparer)], as an insertion sort: an element is placed
    before the first one it does not compare greater than. With the index
    as a tie-break the comparer orders the entries strictly as long as no
    criterion is NaN, and every sorting algorithm then returns the same
    array; the handler sorts after it has dropped the events whose
    distance is NaN. *)
Fixpoint insert {A : Type} (comparer : A -> A -> Z) (x : A) (l : list A) : list A :=
  match l with
  | [] => [x]
  | y :: l' => if comparer x y <=? 0 then x :: l else y :: insert comparer x l'
  end.

Fixpoint sort {A : Type} (comparer : A -> A -> Z) (l : list A) : list A :=
  match l with
  | [] => []
  | x :: l' => insert comparer x (sort comparer l')
  end.

Fixpoint entries {A : Type} (key : A -> JS.value) (i : nat) (l : list A) : list (entry A) :=
  match l with
  | [] => []
  | v :: l' => Build_entry (key v) i v :: entries key (S i) l'
  end.

Definition sortBy {A : Type} (collection : list A) (key : A -> JS.value) : list A :=
  map value (sort compareMultiple (entries key 0 collection)).

End Lodash.

(** ** The objects of the remote listing, and the events returned *)

Module Raw.

Record Metadata : Type :=
  { title : option string;
    country : option string;
    longitude : option string;
    latitude : option string }.

Record Object : Type :=
  { name : string;
    metadata : option Metadata;
    timeCreated : string;
    updated : string }.

(** The body of the listing: [items] is absent when nothing matches. *)
Record Listing : Type := { items : option (list Object) }.

End Raw.

Module Event.

Record t : Type :=
  { title : option string;
    endpoint : string;
    created_at : JS.number;
    updated_at : JS.number;
    country : option string;
    longitude : JS.number;
    latitude : JS.number;
    distance : option JS.number }.

(** [event.distance = d]. *)
Definition set_distance (event : t) (d : JS.number) : t :=
  {| title := title event;
     endpoint := endpoint event;
     created_at := created_at event;
     updated_at := updated_at event;
     country := country event;
     longitude := longitude event;
     latitude := latitude event;
     distance := Some d |}.

End Event.

Inductive Response : Type :=
  | status_400_json (errors : list Error)
  | json (data : list Event.t)
  | sendStatus_500.

Definition BASE_URL : string :=
  "https://storage.googleapis.com/storage/v1/b/malrot/o".
Definition MALROT_URL : string := "https://api.malrot.org".

(** Closes a goal between closed terms by evaluating its two sides. *)
Ltac by_evaluation := vm_compute; reflexivity.

(** Settles one case of an order argument: two comparison results that are
    not "greater" are given as premises. *)
Ltac order_case :=
  let P := fresh "P" in
  let Q := fresh "Q" in
  let E := fresh "E" in
  intros P Q;
  first [ exfalso; lia
        | exfalso; apply P; reflexivity
        | exfalso; apply Q; reflexivity
        | split; [discriminate
                 | intros [E | E]; first [reflexivity | discriminate E]] ].

(** ** A sample store, for the examples

    Two listed objects, a store that answers them for every prefix, and a
    stand-in for turf's [distance] (the sum of the differences of the
    coordinates, at 111 km per degree) that can be evaluated. *)

Module Sample.

Definition paris : Raw.Object :=
  {| Raw.name := "louvre/expo.json";
     Raw.metadata :=
       Some {| Raw.title := Some "Expo";
               Raw.country := Some "FR";
               Raw.longitude := Some "2.3522";
               Raw.latitude := Some "48.8566" |};
     Raw.timeCreated := "2020-01-01T00:00:00.000Z";
     Raw.updated := "2020-01-02T00:00:00.000Z" |}.

Definition berlin : Raw.Object :=
  {| Raw.name := "pergamon/altar.json";
     Raw.metadata :=
       Some {| Raw.title := Some "Altar";
               Raw.country := Some "DE";
               Raw.longitude := Some "13.405";
               Raw.latitude := Some "52.52" |};
     Raw.timeCreated := "1970-01-01T00:00:01Z";
     Raw.updated := "1970-01-01T00:00:02Z" |}.

Definition store (url : string) : option Raw.Listing :=
  Some {| Raw.items := Some [paris; berlin] |}.

Definition unreachable_store (url : string) : option Raw.Listing := None.

Definition distance (from : JS.value * JS.value) (to : JS.number * JS.number)
  : JS.number :=
  let d (a : JS.value) (b : JS.number) :=
    SFabs (SFsub JS.prec JS.emax (JS.ToNumber a) b) in
  JS.mul (JS.of_Z 111) (JS.add (d (fst from) (fst to)) (d (snd from) (snd to))).

(** An event that was last updated at the given time value. *)
Definition event_updated_at (updated_at : Z) : Event.t :=
  {| Event.title := Some "Expo";
     Event.endpoint := "https://api.malrot.org/v1/events/louvre/expo.json";
     Event.created_at := JS.of_Z 0;
     Event.updated_at := JS.of_Z updated_at;
     Event.country := Some "FR";
     Event.longitude := JS.StringToNumber "2.3522";
     Event.latitude := JS.StringToNumber "48.8566";
     Event.distance := None |}.

End Sample.

(** ** The handler of [GET /v1/events]

    The collaborators of the handler are parameters: [parseISO] of
    date-fns, the request [got.get(url).json()] to the object store, which
    answers a listing or fails, and [distance] of turf, called with the
    two tokens of [around] as they are and with the coordinates of the
    event, and taken to answer a number of kilometers for every such
    pair. *)

Section Handler.

Variable parseISO : string -> DateFns.Date.
Variable got_get_json : string -> option Raw.Listing.
Variable distance : JS.value * JS.value -> JS.number * JS.number -> JS.number.

(** The object pushed on [data] for one listed object; reading a property
    of an absent [metadata] throws. *)
Definition project (object : Raw.Object) : option Event.t :=
  match Raw.metadata object with
  | Some metadata =>
      Some {| Event.title := Raw.title metadata;
              Event.endpoint := MALROT_URL +:+ "/v1/events/" +:+ Raw.name object;
              Event.created_at := DateFns.getTime (parseISO (Raw.timeCreated object));
              Event.updated_at := DateFns.getTime (parseISO (Raw.updated object));
              Event.country := Raw.country metadata;
              Event.longitude := JS.Number (JS.prop JS.str (Raw.longitude metadata));
              Event.latitude := JS.Number (JS.prop JS.str (Raw.latitude metadata));
              Event.distance := None |}
  | None => None
  end.

(** [events.map(...)] filling [data]: it throws at the first object that
    has no metadata. *)
Fixpoint project_all (events : list Raw.Object) : option (list Event.t) :=
  match events with
  | [] => Some []
  | object :: rest =>
      match project object with
      | Some event =>
          match project_all rest with
          | Some data => Some (event :: data)
          | None => None
          end
      | None => None
      end
  end.

(** The listing asked to the store, under the [org] prefix if any. *)
Definition fetch (query : Query) : option Raw.Listing :=
  match param query "org" with
  | Some org => got_get_json (BASE_URL +:+ "?prefix=" +:+ org)
  | None => got_get_json BASE_URL
  end.

(** [country.includes(event.country)]. *)
Definition includes_country (country : list string) (c : option string) : bool :=
  match c with
  | Some x => existsb (String.eqb x) country
  | None => false
  end.

Definition filter_country (query : Query) (data : list Event.t) : list Event.t :=
  match param query "country" with
  | Some s =>
      let country := JS.split "," s in
      List.filter (fun event => includes_country country (Event.country event)) data
  | None => data
  end.

(** [event.updated_at > req.query.updated_after]: a number against the
    raw string of the parameter. *)
Definition filter_updated_after (query : Query) (data : list Event.t) : list Event.t :=
  match param query "updated_after" with
  | Some updated_after =>
      List.filter
        (fun event => JS.gt (JS.num (Event.updated_at event)) (JS.str updated_after))
        data
  | None => data
  end.

(** The loop that stores the distance on every event. *)
Definition with_distance (around : list string) (event : Event.t) : Event.t :=
  let distance_in_km :=
    distance (JS.index JS.str around 0%nat, JS.index JS.str around 1%nat)
             (Event.longitude event, Event.latitude event) in
  Event.set_distance event distance_in_km.

Definition within_distance (around : list string) (event : Event.t) : bool :=
  JS.lt (JS.prop JS.num (Event.distance event)) (JS.index JS.str around 2%nat).

Definition filter_around (query : Query) (data : list Event.t) : list Event.t :=
  match param query "around" with
  | Some s =>
      let around := JS.split "," s in
      List.filter (within_distance around) (map (with_distance around) data)
  | None => data
  end.

Definition distance_key (event : Event.t) : JS.value :=
  JS.prop JS.num (Event.distance event).

(** The three filters in their order, then the ranking. *)
Definition pipeline (query : Query) (data : list Event.t) : list Event.t :=
  let data := filter_country query data in
  let data := filter_updated_after query data in
  let data := filter_around query data in
  Lodash.sortBy data distance_key.

Definition handler (query : Query) : Response :=
  let errors := validate query in
  if (0 <? length errors)%nat then status_400_json errors
  else
    match fetch query with
    | Some events =>
        match Raw.items events with
        | Some items =>
            match project_all items with
            | Some data => json (pipeline query data)
            | None => sendStatus_500
            end
        | None => json (pipeline query [])
        end
    | None => sendStatus_500
    end.


(** The objects of a listing: none when [items] is absent. *)
Definition listed (events : Raw.Listing) : list Raw.Object :=
  match Raw.items events with
  | Some items => items
  | None => []
  end.

(** The order of the ranking: the distance of [a] is at most that of
    [b]. *)
Definition by_distance (a b : Event.t) : Prop :=
  JS.le (distance_key a) (distance_key b) = true.

(** The events that the two sample objects are projected to. *)
Definition projected_paris : Event.t :=
  {| Event.title := Some "Expo";
     Event.endpoint := "https://api.malrot.org/v1/events/louvre/expo.json";
     Event.created_at := JS.of_Z 1577836800000;
     Event.updated_at := JS.of_Z 1577923200000;
     Event.country := Some "FR";
     Event.longitude := JS.StringToNumber "2.3522";
     Event.latitude := JS.StringToNumber "48.8566";
     Event.distance := None |}.

Definition projected_berlin : Event.t :=
  {| Event.title := Some "Altar";
     Event.endpoint := "https://api.malrot.org/v1/events/pergamon/altar.json";
     Event.created_at := JS.of_Z 1000;
     Event.updated_at := JS.of_Z 2000;
     Event.country := Some "DE";
     Event.longitude := JS.StringToNumber "13.405";
     Event.latitude := JS.StringToNumber "52.52";
     Event.distance := None |}.

(** ** Properties *)

(** *** Comparison of numbers *)

Lemma SFcompare_antisym (x y : JS.number) (c : comparison) :
  SFcompare x y = Some c -> SFcompare y x = Some (CompOpp c).
Proof.
  destruct x as [sx | sx | | sx mx ex], y as [sy | sy | | sy my ey];
    simpl; try discriminate;
    try (destruct sx; intros [= <-]; reflexivity);
    try (destruct sy; intros [= <-]; reflexivity);
    try (destruct sx, sy; intros [= <-]; reflexivity).
  assert (Hm : Pos.compare_cont Eq my mx = CompOpp (Pos.compare_cont Eq mx my))
    by (rewrite Pos.compare_cont_antisym; reflexivity).
  intros [= <-]. f_equal.
  destruct sx, sy; try reflexivity;
    rewrite (Z.compare_antisym ex ey), Hm;
    destruct (ex ?= ey); simpl; try reflexivity;
    try rewrite CompOpp_involutive; reflexivity.
Qed.

Lemma ltb_irrefl (x : JS.number) : JS.ltb x x = false.
Proof.
  unfold JS.ltb, SFltb.
  destruct (SFcompare x x) as [c |] eqn:E; [| reflexivity].
  pose proof (SFcompare_antisym _ _ _ E) as E'.
  rewrite E in E'. destruct c; try reflexivity; discriminate.
Qed.

Lemma leb_not_ltb (x y : JS.number) : JS.leb x y = true -> JS.ltb y x = false.
Proof.
  unfold JS.leb, JS.ltb, SFleb, SFltb.
  destruct (SFcompare x y) as [c |] eqn:E; [| discriminate].
  rewrite (SFcompare_antisym _ _ _ E).
  destruct c; simpl; intros H; try reflexivity; discriminate H.
Qed.

Lemma ltb_nan_l (y : JS.number) : JS.ltb JS.NaN y = false.
Proof. reflexivity. Qed.

Lemma ltb_nan_r (x : JS.number) : JS.ltb x JS.NaN = false.
Proof. destruct x; reflexivity. Qed.

Lemma leb_nan_l (y : JS.number) : JS.leb JS.NaN y = false.
Proof. reflexivity. Qed.

Lemma is_nan_true (x : JS.number) : JS.is_nan x = true -> x = JS.NaN.
Proof. destruct x; simpl; intros H; try discriminate H; reflexivity. Qed.

(** A relational operator with a number on one side never compares
    strings: it is the numeric comparison of the coerced operands. *)
Lemma lt_num_l (n : JS.number) (v : JS.value) :
  JS.lt (JS.num n) v = JS.ltb n (JS.ToNumber v).
Proof. destruct v; reflexivity. Qed.

Lemma lt_num_r (v : JS.value) (n : JS.number) :
  JS.lt v (JS.num n) = JS.ltb (JS.ToNumber v) n.
Proof. destruct v; reflexivity. Qed.

Lemma le_num_r (v : JS.value) (n : JS.number) :
  JS.le v (JS.num n) = JS.leb (JS.ToNumber v) n.
Proof. destruct v; reflexivity. Qed.

(** *** The guard of a parameter *)

Lemma param_Some (query : Query) (name s : string) :
  param query name = Some s <-> query !! name = Some s /\ s <> "".
Proof.
  unfold param. destruct (query !! name) as [x |]; simpl.
  - destruct (String.eqb_spec x "") as [E | E]; simpl; split.
    + discriminate.
    + intros [[= ->] H]. destruct (H E).
    + intros [= ->]. auto.
    + intros [[= ->] _]. reflexivity.
  - split; [discriminate | intros [? _]; discriminate].
Qed.

Lemma param_insert_ne (query : Query) (name key v : string) :
  key <> name -> param (<[ key := v ]> query) name = param query name.
Proof. intros H. unfold param. rewrite lookup_insert_ne; auto. Qed.

(** *** Errors pushed under a condition *)

Lemma push_if_app_nil (c : bool) (e : Error) (l : list Error) :
  (push_if c e ++ l)%list = [] <-> c = false /\ l = [].
Proof.
  destruct c; simpl; split; try discriminate; auto.
  - intros [? _]; discriminate.
  - intros [_ ->]; reflexivity.
Qed.

Lemma In_push_if (c : bool) (e x : Error) :
  In x (push_if c e) <-> c = true /\ x = e.
Proof.
  destruct c; simpl; split.
  - intros [<- | []]. auto.
  - intros [_ ->]. now left.
  - intros [].
  - intros [H _]. discriminate H.
Qed.

(** *** The ranking *)

Lemma In_insert {A : Type} (comparer : A -> A -> Z) (a x : A) (l : list A) :
  In x (Lodash.insert comparer a l) <-> x = a \/ In x l.
Proof.
  induction l as [| y l IH]; simpl.
  - split; [intros [<- | []]; now left | intros [-> | []]; now left].
  - destruct (comparer a y <=? 0); simpl.
    + split; [intros [<- | H]; [now left | now right]
             | intros [-> | H]; [now left | now right]].
    + rewrite IH. split; [intros [H | [H | H]] | intros [H | [H | H]]]; auto.
Qed.

Lemma In_sort {A : Type} (comparer : A -> A -> Z) (x : A) (l : list A) :
  In x (Lodash.sort comparer l) <-> In x l.
Proof.
  induction l as [| y l IH]; simpl; [reflexivity |].
  rewrite In_insert, IH. split; intros [H | H]; auto.
Qed.

Lemma map_value_entries {A : Type} (key : A -> JS.value) (i : nat) (l : list A) :
  map Lodash.value (Lodash.entries key i l) = l.
Proof.
  revert i. induction l as [| v l IH]; intros i; simpl; [reflexivity |].
  now rewrite IH.
Qed.

(** [sortBy] returns the elements it was given. *)
Lemma In_sortBy {A : Type} (key : A -> JS.value) (x : A) (l : list A) :
  In x (Lodash.sortBy l key) <-> In x l.
Proof.
  unfold Lodash.sortBy.
  rewrite <- (map_value_entries key 0 l) at 2.
  rewrite !in_map_iff.
  split; intros (en & Hv & Hin); exists en; split; auto;
    apply (In_sort Lodash.compareMultiple); exact Hin.
Qed.

Lemma sort_entries_undefined {A : Type} (key : A -> JS.value) (l : list A) (i : nat) :
  (forall x, In x l -> key x = JS.undefined) ->
  Lodash.sort Lodash.compareMultiple (Lodash.entries key i l)
  = Lodash.entries key i l.
Proof.
  revert i. induction l as [| v l IH]; intros i Hk; simpl; [reflexivity |].
  rewrite IH by (intros x Hx; apply Hk; now right).
  destruct l as [| w l']; simpl; [reflexivity |].
  unfold Lodash.compareMultiple at 1. simpl.
  rewrite (Hk v) by now left.
  rewrite (Hk w) by (right; now left).
  cbn [Lodash.compareAscending Lodash.strict_ne negb Z.eqb].
  destruct (Z.leb_spec (Z.of_nat i - Z.of_nat (S i)) 0) as [_ | H];
    [reflexivity | lia].
Qed.

(** Without a key on any element, [sortBy] leaves the order as it is. *)
Lemma sortBy_undefined {A : Type} (key : A -> JS.value) (l : list A) :
  (forall x, In x l -> key x = JS.undefined) -> Lodash.sortBy l key = l.
Proof.
  intros Hk. unfold Lodash.sortBy.
  rewrite sort_entries_undefined by exact Hk.
  apply map_value_entries.
Qed.

(** *** The validation *)

Lemma isNaN_compare (v : JS.value) (n : JS.number) :
  JS.isNaN v = true ->
  JS.lt v (JS.num n) = false /\ JS.le v (JS.num n) = false
  /\ JS.gt v (JS.num n) = false.
Proof.
  unfold JS.isNaN, JS.gt. intros H%is_nan_true.
  rewrite lt_num_r, le_num_r, lt_num_l, H.
  auto using ltb_nan_l, leb_nan_l, ltb_nan_r.
Qed.

Lemma handler_rejects (query : Query) :
  validate query <> [] -> handler query = status_400_json (validate query).
Proof.
  unfold handler. destruct (validate query); [congruence | reflexivity].
Qed.

Lemma handler_accepts (query : Query) :
  validate query = [] ->
  handler query =
    match fetch query with
    | Some events =>
        match Raw.items events with
        | Some items =>
            match project_all items with
            | Some data => json (pipeline query data)
            | None => sendStatus_500
            end
        | None => json (pipeline query [])
        end
    | None => sendStatus_500
    end.
Proof. unfold handler. intros ->. reflexivity. Qed.

Lemma check_around_code (query : Query) (e : Error) :
  In e (check_around query) -> code e = "wrong_around_param".
Proof.
  unfold check_around. destruct (param query "around"); [| intros []].
  unfold check_around_numbers.
  rewrite !in_app_iff, !In_push_if.
  intros [H | [H | [H | H]]]; destruct H as [_ ->]; reflexivity.
Qed.

Lemma check_country_code_prefix (c : string) (e : Error) :
  In e (check_country_code c) ->
  String.prefix "wrong_country_param/" (code e) = true.
Proof.
  assert (P : String.prefix "" c = true) by (destruct c; reflexivity).
  unfold check_country_code.
  rewrite !in_app_iff, !In_push_if.
  intros [H | [H | H]]; destruct H as [_ ->]; exact P.
Qed.

Lemma check_country_prefix (query : Query) (e : Error) :
  In e (check_country query) ->
  String.prefix "wrong_country_param/" (code e) = true.
Proof.
  unfold check_country. destruct (param query "country"); [| intros []].
  rewrite in_flat_map. intros (c & _ & H).
  eapply check_country_code_prefix, H.
Qed.

(** C1 (amended). For [country=FR,1,xyz] and no other invalid parameter
    the validator produces exactly four errors, in this order: for ["1"]
    the letter-presence error and the length error, for ["xyz"] the case
    error and the length error, each keyed [wrong_country_param/<code>];
    it produces none for ["FR"], and the response is the 400 that carries
    these four errors. *)
Theorem country_FR_1_xyz_errors (query : Query) :
  query !! "country" = Some "FR,1,xyz" ->
  check_org query = [] ->
  check_around query = [] ->
  check_updated_at query = [] ->
  validate query =
    [country_not_letters "1"; country_not_2_long "1";
     country_not_uppercase "xyz"; country_not_2_long "xyz"]
  /\ handler query =
       status_400_json
         [country_not_letters "1"; country_not_2_long "1";
          country_not_uppercase "xyz"; country_not_2_long "xyz"].
Proof.
  intros Hc Ho Ha Hu.
  assert (V : validate query =
    [country_not_letters "1"; country_not_2_long "1";
     country_not_uppercase "xyz"; country_not_2_long "xyz"]).
  { unfold validate. rewrite Ho, Ha, Hu.
    unfold check_country, param. rewrite Hc. reflexivity. }
  split; [exact V |].
  rewrite handler_rejects; rewrite V; [reflexivity | discriminate].
Qed.

(** C2 (the code at the failing input). The request [around=1,1,0], whose
    three tokens are numbers and whose radius is exactly 0, passes the
    validation: no error is collected and the response is not a 400. *)
Theorem around_radius_zero_accepted :
  validate {[ "around" := "1,1,0" ]} = []
  /\ forall errors : list Error,
       handler {[ "around" := "1,1,0" ]} <> status_400_json errors.
Proof.
  assert (V : validate {[ "around" := "1,1,0" ]} = []) by (vm_compute; reflexivity).
  split; [exact V |].
  intros errors. rewrite handler_accepts by exact V.
  destruct (fetch _) as [events |]; [| discriminate].
  destruct (Raw.items events) as [items |]; [| discriminate].
  destruct (project_all items); discriminate.
Qed.

(** C4. When one of the first three positions of [around] is not a
    number, the validator emits the parse error once, and for each
    position that is not a number it does not emit the range error of
    that position: longitude for the first, latitude for the second,
    radius for the third. *)
Theorem around_not_numeric (query : Query) (s : string) :
  param query "around" = Some s ->
  JS.isNaN (JS.index JS.num (around_numbers s) 0%nat) = true
  \/ JS.isNaN (JS.index JS.num (around_numbers s) 1%nat) = true
  \/ JS.isNaN (JS.index JS.num (around_numbers s) 2%nat) = true ->
  exists rest : list Error,
    check_around query = around_not_3_numbers :: rest
    /\ ~ In around_not_3_numbers rest
    /\ (JS.isNaN (JS.index JS.num (around_numbers s) 0%nat) = true ->
        ~ In around_longitude rest)
    /\ (JS.isNaN (JS.index JS.num (around_numbers s) 1%nat) = true ->
        ~ In around_latitude rest)
    /\ (JS.isNaN (JS.index JS.num (around_numbers s) 2%nat) = true ->
        ~ In around_distance rest).
Proof.
  intros Hp Hnan.
  unfold check_around. rewrite Hp.
  unfold check_around_numbers.
  set (a0 := JS.index JS.num (around_numbers s) 0%nat) in Hnan |- *.
  set (a1 := JS.index JS.num (around_numbers s) 1%nat) in Hnan |- *.
  set (a2 := JS.index JS.num (around_numbers s) 2%nat) in Hnan |- *.
  assert (C : JS.isNaN a0 || JS.isNaN a1 || JS.isNaN a2
              || negb (length (around_numbers s) =? 3)%nat = true).
  { destruct Hnan as [-> | [-> | ->]];
      rewrite ?orb_true_r, ?orb_true_l; reflexivity. }
  rewrite C. simpl push_if at 1.
  eexists; split; [reflexivity |].
  rewrite !in_app_iff, !In_push_if.
  repeat split.
  - intros [H | [H | H]]; destruct H as [_ H]; discriminate H.
  - intros H0 [H | [H | H]]; destruct H as [Hc H]; try discriminate H.
    destruct (isNaN_compare a0 (JS.of_Z (-180)) H0) as (_ & L & _).
    destruct (isNaN_compare a0 (JS.of_Z 180) H0) as (_ & _ & G).
    unfold lit in Hc. rewrite L, G in Hc. discriminate Hc.
  - intros H1 [H | [H | H]]; destruct H as [Hc H]; try discriminate H.
    destruct (isNaN_compare a1 (JS.of_Z (-90)) H1) as (L & _ & _).
    destruct (isNaN_compare a1 (JS.of_Z 90) H1) as (_ & _ & G).
    unfold lit in Hc. rewrite L, G in Hc. discriminate Hc.
  - intros H2 [H | [H | H]]; destruct H as [Hc H]; try discriminate H.
    destruct (isNaN_compare a2 (JS.of_Z 0) H2) as (L & _ & _).
    unfold lit in Hc. rewrite L in Hc. discriminate Hc.
Qed.

(** C5. The validation does not stop at the first failure: when both the
    check of [around] and the check of [country] find something, the
    response is one 400 whose list holds every error of the two checks,
    so at least one [wrong_around_param] and one [wrong_country_param/..]
    error. *)
Theorem errors_collected (query : Query) :
  check_around query <> [] ->
  check_country query <> [] ->
  exists errors : list Error,
    handler query = status_400_json errors
    /\ (forall e, In e (check_around query) -> In e errors)
    /\ (forall e, In e (check_country query) -> In e errors)
    /\ (exists e, In e errors /\ code e = "wrong_around_param")
    /\ (exists e, In e errors
                  /\ String.prefix "wrong_country_param/" (code e) = true).
Proof.
  intros Ha Hc.
  assert (Ia : forall e, In e (check_around query) -> In e (validate query)).
  { intros e H. unfold validate. rewrite !in_app_iff. tauto. }
  assert (Ic : forall e, In e (check_country query) -> In e (validate query)).
  { intros e H. unfold validate. rewrite !in_app_iff. tauto. }
  exists (validate query). repeat split; auto.
  - apply handler_rejects.
    destruct (check_around query) as [| e l] eqn:E; [congruence |].
    intros V. specialize (Ia e (or_introl eq_refl)). rewrite V in Ia. exact Ia.
  - destruct (check_around query) as [| e l] eqn:E; [congruence |].
    exists e. split; [apply Ia; now left |].
    apply (check_around_code query). rewrite E. now left.
  - destruct (check_country query) as [| e l] eqn:E; [congruence |].
    exists e. split; [apply Ic; now left |].
    apply (check_country_prefix query). rewrite E. now left.
Qed.

(** *** The projection *)


Lemma project_no_distance (object : Raw.Object) (event : Event.t) :
  project object = Some event -> Event.distance event = None.
Proof.
  unfold project. destruct (Raw.metadata object); [| discriminate].
  intros [= <-]. reflexivity.
Qed.

Lemma project_all_Forall2 (items : list Raw.Object) (data : list Event.t) :
  project_all items = Some data ->
  Forall2 (fun object event => project object = Some event) items data.
Proof.
  revert data. induction items as [| o items IH]; simpl; intros data.
  - intros [= <-]. constructor.
  - destruct (project o) as [e |] eqn:E; [| discriminate].
    destruct (project_all items) as [d |]; [| discriminate].
    intros [= <-]. constructor; auto.
Qed.

Lemma project_all_no_distance (items : list Raw.Object) (data : list Event.t) :
  project_all items = Some data ->
  forall event, In event data -> Event.distance event = None.
Proof.
  intros H%project_all_Forall2.
  induction H as [| o e items data Hp _ IH]; intros event; simpl;
    [intros [] |].
  intros [<- | Hin]; [eapply project_no_distance, Hp | auto].
Qed.

(** *** The filters *)

Lemma filter_country_In (query : Query) (data : list Event.t) (event : Event.t) :
  In event (filter_country query data) -> In event data.
Proof.
  unfold filter_country. destruct (param query "country"); [| auto].
  rewrite filter_In. intros [H _]. exact H.
Qed.

Lemma filter_updated_after_In (query : Query) (data : list Event.t) (event : Event.t) :
  In event (filter_updated_after query data) -> In event data.
Proof.
  unfold filter_updated_after. destruct (param query "updated_after"); [| auto].
  rewrite filter_In. intros [H _]. exact H.
Qed.

Lemma sublist_List_filter {A : Type} (f : A -> bool) (l : list A) :
  sublist (List.filter f l) l.
Proof.
  induction l as [| x l IH]; simpl; [constructor |].
  destruct (f x); [apply sublist_skip | apply sublist_cons]; exact IH.
Qed.

Lemma filter_country_sublist (query : Query) (data : list Event.t) :
  sublist (filter_country query data) data.
Proof.
  unfold filter_country. destruct (param query "country"); [| reflexivity].
  apply sublist_List_filter.
Qed.

Lemma filter_updated_after_sublist (query : Query) (data : list Event.t) :
  sublist (filter_updated_after query data) data.
Proof.
  unfold filter_updated_after.
  destruct (param query "updated_after"); [| reflexivity].
  apply sublist_List_filter.
Qed.

(** C6. When the guard of [updated_after] holds and the parameter
    coerces to the number [t], the recency filter keeps an event if and
    only if [t < updated_at] as numbers, whatever the digits of the string
    look like; in particular an event with [updated_at <= t] is dropped. *)
Theorem updated_after_filter (query : Query) (s : string) (t : JS.number)
    (data : list Event.t) :
  param query "updated_after" = Some s ->
  JS.Number (JS.str s) = t ->
  (forall event,
     In event (filter_updated_after query data)
     <-> In event data /\ JS.ltb t (Event.updated_at event) = true)
  /\ (forall event,
        JS.leb (Event.updated_at event) t = true ->
        ~ In event (filter_updated_after query data)).
Proof.
  intros Hp Ht.
  assert (K : forall event,
     In event (filter_updated_after query data)
     <-> In event data /\ JS.ltb t (Event.updated_at event) = true).
  { intros event. unfold filter_updated_after. rewrite Hp.
    rewrite filter_In. unfold JS.gt. rewrite lt_num_r.
    unfold JS.Number in Ht. rewrite Ht. reflexivity. }
  split; [exact K |].
  intros event Hle [_ Hlt]%K.
  rewrite (leb_not_ltb _ _ Hle) in Hlt. discriminate Hlt.
Qed.

(** A request whose [around] passes its check has exactly three tokens,
    none of which is NaN. *)
Lemma check_around_valid (query : Query) (s : string) :
  param query "around" = Some s ->
  check_around query = [] ->
  exists lon lat radius : string,
    JS.split "," s = [lon; lat; radius]
    /\ JS.is_nan (JS.StringToNumber lon) = false
    /\ JS.is_nan (JS.StringToNumber lat) = false
    /\ JS.is_nan (JS.StringToNumber radius) = false.
Proof.
  intros Hp. unfold check_around. rewrite Hp.
  unfold check_around_numbers, around_numbers.
  intros [C _]%push_if_app_nil.
  apply orb_false_elim in C as [C L].
  apply orb_false_elim in C as [C C2].
  apply orb_false_elim in C as [C0 C1].
  apply negb_false_iff, Nat.eqb_eq in L.
  rewrite length_map in L.
  destruct (JS.split "," s) as [| lon [| lat [| radius [| ? ?]]]];
    try discriminate L.
  exists lon, lat, radius. auto.
Qed.

Lemma In_filter_around (query : Query) (s lon lat radius : string)
    (data : list Event.t) (event' : Event.t) :
  param query "around" = Some s ->
  JS.split "," s = [lon; lat; radius] ->
  In event' (filter_around query data)
  <-> exists event,
        In event data
        /\ event' = Event.set_distance event
                      (distance (JS.str lon, JS.str lat)
                                (Event.longitude event, Event.latitude event))
        /\ JS.ltb (distance (JS.str lon, JS.str lat)
                            (Event.longitude event, Event.latitude event))
                  (JS.Number (JS.str radius)) = true.
Proof.
  intros Hp Hs. unfold filter_around. rewrite Hp, Hs.
  rewrite filter_In, in_map_iff. split.
  - intros [(event & <- & Hin) Hw]. exists event. repeat split; auto.
  - intros (event & Hin & -> & Hw). split; [exists event; auto | exact Hw].
Qed.

(** C7. With a present and valid [around = lon,lat,radius], every event
    that passed the country and recency filters gets the distance from
    the origin [(lon, lat)] to its own coordinates stored on it, and it is
    in the ranked result if and only if that distance is strictly less
    than the radius; an event whose distance equals the radius is left
    out. *)
Theorem around_filter (query : Query) (s : string) :
  param query "around" = Some s ->
  check_around query = [] ->
  exists lon lat radius : string,
    JS.split "," s = [lon; lat; radius]
    /\ forall data : list Event.t,
         (forall event',
            In event' (pipeline query data)
            <-> exists event,
                  In event (filter_updated_after query (filter_country query data))
                  /\ event' = Event.set_distance event
                       (distance (JS.str lon, JS.str lat)
                                 (Event.longitude event, Event.latitude event))
                  /\ JS.ltb (distance (JS.str lon, JS.str lat)
                               (Event.longitude event, Event.latitude event))
                            (JS.Number (JS.str radius)) = true)
         /\ (forall event,
               In event (filter_updated_after query (filter_country query data)) ->
               distance (JS.str lon, JS.str lat)
                        (Event.longitude event, Event.latitude event)
               = JS.Number (JS.str radius) ->
               ~ In (Event.set_distance event (JS.Number (JS.str radius)))
                    (pipeline query data)).
Proof.
  intros Hp Hv.
  destruct (check_around_valid query s Hp Hv) as (lon & lat & radius & Hs & _).
  exists lon, lat, radius. split; [exact Hs |].
  intros data.
  assert (K : forall event',
    In event' (pipeline query data)
    <-> exists event,
          In event (filter_updated_after query (filter_country query data))
          /\ event' = Event.set_distance event
               (distance (JS.str lon, JS.str lat)
                         (Event.longitude event, Event.latitude event))
          /\ JS.ltb (distance (JS.str lon, JS.str lat)
                       (Event.longitude event, Event.latitude event))
                    (JS.Number (JS.str radius)) = true).
  { intros event'. unfold pipeline. rewrite In_sortBy.
    apply (In_filter_around query s lon lat radius); assumption. }
  split; [exact K |].
  intros event _ Hd (event2 & _ & Heq & Hlt)%K.
  apply (f_equal Event.distance) in Heq. simpl in Heq.
  injection Heq as Heq. rewrite <- Heq, ltb_irrefl in Hlt. discriminate Hlt.
Qed.

(** *** The whole handler *)

Lemma handler_listed (query : Query) (events : Raw.Listing) (data : list Event.t) :
  validate query = [] ->
  fetch query = Some events ->
  project_all (listed events) = Some data ->
  handler query = json (pipeline query data).
Proof.
  intros V F P. rewrite handler_accepts by exact V. rewrite F.
  unfold listed in P. destruct (Raw.items events).
  - rewrite P. reflexivity.
  - injection P as <-. reflexivity.
Qed.

Lemma handler_json_inv (query : Query) (result : list Event.t) :
  handler query = json result ->
  validate query = []
  /\ exists events data,
       fetch query = Some events
       /\ project_all (listed events) = Some data
       /\ result = pipeline query data.
Proof.
  unfold handler, listed.
  destruct (validate query); simpl; [| discriminate].
  split; [reflexivity |].
  destruct (fetch query) as [events |]; [| discriminate].
  exists events.
  destruct (Raw.items events) as [items |].
  - destruct (project_all items) as [data |]; [| discriminate].
    injection H as <-. exists data. auto.
  - injection H as <-. exists []. auto.
Qed.

Lemma pipeline_no_around (query : Query) (data : list Event.t) :
  param query "around" = None ->
  (forall event, In event data -> Event.distance event = None) ->
  pipeline query data = filter_updated_after query (filter_country query data).
Proof.
  intros Hp Hd. unfold pipeline, filter_around. rewrite Hp.
  apply sortBy_undefined. intros event Hin.
  unfold distance_key.
  rewrite (Hd event); [reflexivity |].
  eapply filter_country_In, filter_updated_after_In, Hin.
Qed.

(** C8. Without the [around] parameter, the events of a 200 response are
    the projected objects of the listing that pass the country and recency
    filters, in the order of the listing: the final [sortBy] finds no
    distance on any of them and changes nothing. *)
Theorem no_around_keeps_order (query : Query) (events : Raw.Listing)
    (data : list Event.t) :
  param query "around" = None ->
  validate query = [] ->
  fetch query = Some events ->
  project_all (listed events) = Some data ->
  handler query = json (filter_updated_after query (filter_country query data))
  /\ Forall2 (fun object event => project object = Some event) (listed events) data
  /\ sublist (filter_updated_after query (filter_country query data)) data.
Proof.
  intros Hp V F P. repeat split.
  - rewrite (handler_listed query events data V F P).
    rewrite pipeline_no_around; [reflexivity | exact Hp |].
    apply (project_all_no_distance _ _ P).
  - apply project_all_Forall2, P.
  - etransitivity; [apply filter_updated_after_sublist | apply filter_country_sublist].
Qed.


Lemma validate_insert_updated_after (query : Query) (s : string) :
  validate (<[ "updated_after" := s ]> query) = validate query.
Proof.
  unfold validate, check_org, check_around, check_country, check_updated_at.
  rewrite !param_insert_ne by discriminate. reflexivity.
Qed.

Lemma fetch_insert_updated_after (query : Query) (s : string) :
  fetch (<[ "updated_after" := s ]> query) = fetch query.
Proof.
  unfold fetch. rewrite param_insert_ne by discriminate. reflexivity.
Qed.

Lemma List_filter_none {A : Type} (f : A -> bool) (l : list A) :
  (forall x, In x l -> f x = false) -> List.filter f l = [].
Proof.
  induction l as [| x l IH]; simpl; intros H; [reflexivity |].
  rewrite (H x) by now left. apply IH. intros y Hy. apply H. now right.
Qed.

Lemma filter_around_nil (query : Query) : filter_around query [] = [].
Proof. unfold filter_around. destruct (param query "around"); reflexivity. Qed.

(** C10. [updated_after] is not looked at by the validation: setting it
    to a string that is not a number on a request that passes the
    validation gives a request that still passes it, so the response is
    never a 400; and whenever the listing is retrieved and projected, the
    response is the 200 with the empty array, the comparison with NaN
    dropping every event. *)
Theorem updated_after_not_validated (query : Query) (s : string) :
  JS.isNaN (JS.str s) = true ->
  validate query = [] ->
  validate (<[ "updated_after" := s ]> query) = []
  /\ (forall errors,
        handler (<[ "updated_after" := s ]> query) <> status_400_json errors)
  /\ (forall events data,
        fetch (<[ "updated_after" := s ]> query) = Some events ->
        project_all (listed events) = Some data ->
        handler (<[ "updated_after" := s ]> query) = json []).
Proof.
  intros Hn V.
  assert (V' : validate (<[ "updated_after" := s ]> query) = [])
    by (rewrite validate_insert_updated_after; exact V).
  split; [exact V' |]. split.
  - intros errors. rewrite handler_accepts by exact V'.
    destruct (fetch _) as [events |]; [| discriminate].
    destruct (Raw.items events) as [items |]; [| discriminate].
    destruct (project_all items); discriminate.
  - intros events data F P.
    rewrite (handler_listed _ events data V' F P). f_equal.
    assert (Hp : param (<[ "updated_after" := s ]> query) "updated_after" = Some s).
    { apply param_Some. split; [apply lookup_insert_eq |].
      intros ->. discriminate Hn. }
    unfold pipeline, filter_updated_after at 1. rewrite Hp.
    rewrite List_filter_none.
    + rewrite filter_around_nil. reflexivity.
    + intros event _. unfold JS.gt. rewrite lt_num_r.
      unfold JS.isNaN in Hn. apply is_nan_true in Hn. rewrite Hn.
      apply ltb_nan_l.
Qed.

(** ** Further properties of the validation *)

(** *** Numbers that are not NaN are comparable *)

Lemma ltb_true_not_nan (x y : JS.number) :
  JS.ltb x y = true -> JS.is_nan x = false /\ JS.is_nan y = false.
Proof.
  unfold JS.ltb, SFltb.
  destruct x, y; simpl; intros H; try discriminate H; split; reflexivity.
Qed.

Lemma leb_true_not_nan (x y : JS.number) :
  JS.leb x y = true -> JS.is_nan x = false /\ JS.is_nan y = false.
Proof.
  unfold JS.leb, SFleb.
  destruct x, y; simpl; intros H; try discriminate H; split; reflexivity.
Qed.

Lemma SFcompare_total (x y : JS.number) :
  JS.is_nan x = false -> JS.is_nan y = false ->
  exists c, SFcompare x y = Some c.
Proof.
  destruct x, y; simpl; intros Hx Hy;
    try discriminate Hx; try discriminate Hy; eexists; reflexivity.
Qed.

Lemma leb_false_ltb (x y : JS.number) :
  JS.is_nan x = false -> JS.is_nan y = false ->
  JS.leb x y = false -> JS.ltb y x = true.
Proof.
  intros Hx Hy. destruct (SFcompare_total x y Hx Hy) as [c E].
  unfold JS.leb, JS.ltb, SFleb, SFltb.
  rewrite E, (SFcompare_antisym _ _ _ E).
  destruct c; simpl; intros H; try discriminate H; reflexivity.
Qed.

Lemma ltb_false_leb (x y : JS.number) :
  JS.is_nan x = false -> JS.is_nan y = false ->
  JS.ltb x y = false -> JS.leb y x = true.
Proof.
  intros Hx Hy. destruct (SFcompare_total x y Hx Hy) as [c E].
  unfold JS.leb, JS.ltb, SFleb, SFltb.
  rewrite E, (SFcompare_antisym _ _ _ E).
  destruct c; simpl; intros H; try discriminate H; reflexivity.
Qed.

Lemma ltb_not_leb (x y : JS.number) : JS.ltb x y = true -> JS.leb y x = false.
Proof.
  intros H. destruct (JS.leb y x) eqn:E; [| reflexivity].
  rewrite (leb_not_ltb _ _ E) in H. discriminate H.
Qed.

(** *** Letters and case *)







Lemma push_if_nil (c : bool) (e : Error) : push_if c e = [] <-> c = false.
Proof.
  destruct c; simpl; split; intros H; first [reflexivity | discriminate H].
Qed.





Lemma check_around_numbers_3 (a b c : JS.number) :
  check_around_numbers [a; b; c]
  = (push_if (JS.is_nan a || JS.is_nan b || JS.is_nan c || false)
       around_not_3_numbers
     ++ push_if (JS.leb a (JS.of_Z (-180)) || JS.ltb (JS.of_Z 180) a)
          around_longitude
     ++ push_if (JS.ltb b (JS.of_Z (-90)) || JS.ltb (JS.of_Z 90) b)
          around_latitude
     ++ push_if (JS.ltb c (JS.of_Z 0)) around_distance)%list.
Proof. reflexivity. Qed.

(** X4. A present [around] passes its check exactly when it has three
    tokens that are numbers with [-180 < longitude <= 180],
    [-90 <= latitude <= 90] and [0 <= radius]: the longitude -180 is
    refused, the longitude 180 and the radius 0 are accepted. *)
Theorem around_accepted_iff (query : Query) (s : string) :
  param query "around" = Some s ->
  check_around query = []
  <-> exists lon lat radius : string,
        JS.split "," s = [lon; lat; radius]
        /\ JS.ltb (JS.of_Z (-180)) (JS.StringToNumber lon) = true
        /\ JS.leb (JS.StringToNumber lon) (JS.of_Z 180) = true
        /\ JS.leb (JS.of_Z (-90)) (JS.StringToNumber lat) = true
        /\ JS.leb (JS.StringToNumber lat) (JS.of_Z 90) = true
        /\ JS.leb (JS.of_Z 0) (JS.StringToNumber radius) = true.
Proof.
  intros Hp. split.
  - intros Hv.
    destruct (check_around_valid query s Hp Hv)
      as (lon & lat & radius & Hs & N0 & N1 & N2).
    exists lon, lat, radius. split; [exact Hs |].
    unfold check_around in Hv. rewrite Hp in Hv.
    unfold around_numbers in Hv. rewrite Hs in Hv.
    cbn [map] in Hv. rewrite check_around_numbers_3 in Hv.
    apply push_if_app_nil in Hv as [_ Hv].
    apply push_if_app_nil in Hv as [C0 Hv].
    apply push_if_app_nil in Hv as [C1 Hv].
    apply push_if_nil in Hv.
    apply orb_false_elim in C0 as [A0 B0].
    apply orb_false_elim in C1 as [A1 B1].
    repeat split.
    + apply leb_false_ltb; auto.
    + apply ltb_false_leb; auto.
    + apply ltb_false_leb; auto.
    + apply ltb_false_leb; auto.
    + apply ltb_false_leb; auto.
  - intros (lon & lat & radius & Hs & L0 & U0 & L1 & U1 & R).
    unfold check_around. rewrite Hp.
    unfold around_numbers. rewrite Hs.
    destruct (ltb_true_not_nan _ _ L0) as [_ N0].
    destruct (leb_true_not_nan _ _ L1) as [_ N1].
    destruct (leb_true_not_nan _ _ R) as [_ N2].
    cbn [map]. rewrite check_around_numbers_3.
    change (JS.Number (JS.str lon)) with (JS.StringToNumber lon).
    change (JS.Number (JS.str lat)) with (JS.StringToNumber lat).
    change (JS.Number (JS.str radius)) with (JS.StringToNumber radius).
    rewrite N0, N1, N2.
    rewrite (ltb_not_leb _ _ L0), (leb_not_ltb _ _ U0),
            (leb_not_ltb _ _ L1), (leb_not_ltb _ _ U1), (leb_not_ltb _ _ R).
    reflexivity.
Qed.

Lemma leb_nan_r (x : JS.number) : JS.leb x JS.NaN = false.
Proof. destruct x; reflexivity. Qed.

(** X5. A present [updated_at] passes its check exactly when it is a
    number that is at least 0, and it never gives more than one error:
    NaN is not less than 0. *)
Theorem updated_at_accepted_iff (query : Query) (s : string) :
  param query "updated_at" = Some s ->
  (check_updated_at query = []
   <-> JS.leb (JS.of_Z 0) (JS.StringToNumber s) = true)
  /\ (length (check_updated_at query) <= 1)%nat.
Proof.
  intros Hp. unfold check_updated_at. rewrite Hp.
  change (JS.isNaN (JS.num (JS.Number (JS.str s))))
    with (JS.is_nan (JS.StringToNumber s)).
  change (JS.lt (JS.num (JS.Number (JS.str s))) (lit 0))
    with (JS.ltb (JS.StringToNumber s) (JS.of_Z 0)).
  destruct (JS.is_nan (JS.StringToNumber s)) eqn:N.
  - apply is_nan_true in N. rewrite N, ltb_nan_l, leb_nan_r.
    split; [split; intros H; discriminate H | simpl; lia].
  - destruct (JS.ltb (JS.StringToNumber s) (JS.of_Z 0)) eqn:L.
    + rewrite (ltb_not_leb _ _ L).
      split; [split; intros H; discriminate H | simpl; lia].
    + rewrite (ltb_false_leb _ (JS.of_Z 0) N eq_refl L).
      split; [split; reflexivity | simpl; lia].
Qed.

(** ** Further properties of the handler *)

(** *** The parameters that the handler reads *)

Lemma validate_ext (query query' : Query) :
  param query "org" = param query' "org" ->
  param query "around" = param query' "around" ->
  param query "country" = param query' "country" ->
  param query "updated_at" = param query' "updated_at" ->
  validate query = validate query'.
Proof.
  intros Ho Ha Hc Hu.
  unfold validate, check_org, check_around, check_country, check_updated_at.
  rewrite Ho, Ha, Hc, Hu. reflexivity.
Qed.

Lemma fetch_ext (query query' : Query) :
  param query "org" = param query' "org" -> fetch query = fetch query'.
Proof. intros Ho. unfold fetch. rewrite Ho. reflexivity. Qed.

Lemma pipeline_ext (query query' : Query) (data : list Event.t) :
  param query "country" = param query' "country" ->
  param query "updated_after" = param query' "updated_after" ->
  param query "around" = param query' "around" ->
  pipeline query data = pipeline query' data.
Proof.
  intros Hc Hu Ha.
  unfold pipeline, filter_country, filter_updated_after, filter_around.
  rewrite Hc, Hu, Ha. reflexivity.
Qed.

Lemma handler_pipeline_ext (query query' : Query) :
  validate query = validate query' ->
  fetch query = fetch query' ->
  (forall data, pipeline query data = pipeline query' data) ->
  handler query = handler query'.
Proof.
  intros V F P. unfold handler. rewrite V, F.
  destruct (0 <? length (validate query'))%nat; [reflexivity |].
  destruct (fetch query') as [events |]; [| reflexivity].
  destruct (Raw.items events) as [items |].
  - destruct (project_all items); [rewrite P |]; reflexivity.
  - rewrite P. reflexivity.
Qed.

Lemma handler_ext (query query' : Query) :
  param query "org" = param query' "org" ->
  param query "around" = param query' "around" ->
  param query "country" = param query' "country" ->
  param query "updated_at" = param query' "updated_at" ->
  param query "updated_after" = param query' "updated_after" ->
  handler query = handler query'.
Proof.
  intros Ho Ha Hc Hu Hf. apply handler_pipeline_ext.
  - apply validate_ext; assumption.
  - apply fetch_ext; assumption.
  - intros data. apply pipeline_ext; assumption.
Qed.

Lemma param_insert_empty (query : Query) (name n : string) :
  param (<[ name := "" ]> query) n = param (delete name query) n.
Proof.
  unfold param. destruct (String.eqb_spec name n) as [-> | Hne].
  - rewrite lookup_insert_eq, lookup_delete_eq. reflexivity.
  - rewrite lookup_insert_ne, lookup_delete_ne by exact Hne. reflexivity.
Qed.

(** X6. [updated_at] is checked and then never read again: setting it
    on a request, as long as the request passes the validation before and
    after, does not change the response. *)
Theorem updated_at_only_validated (query : Query) (s : string) :
  validate query = [] ->
  validate (<[ "updated_at" := s ]> query) = [] ->
  handler (<[ "updated_at" := s ]> query) = handler query.
Proof.
  intros V V'. apply handler_pipeline_ext.
  - rewrite V, V'. reflexivity.
  - apply fetch_ext. apply param_insert_ne. discriminate.
  - intros data. apply pipeline_ext; apply param_insert_ne; discriminate.
Qed.

(** X7. A query parameter with any other name than the five that the
    handler reads is ignored. *)
Theorem unknown_parameter_ignored (query : Query) (name v : string) :
  name <> "org" -> name <> "around" -> name <> "country" ->
  name <> "updated_at" -> name <> "updated_after" ->
  handler (<[ name := v ]> query) = handler query.
Proof.
  intros H1 H2 H3 H4 H5.
  apply handler_ext; apply param_insert_ne; assumption.
Qed.

(** X8. A parameter given with an empty value is treated as if it was
    not given at all, whatever its name. *)
Theorem empty_parameter_is_absent (query : Query) (name : string) :
  handler (<[ name := "" ]> query) = handler (delete name query).
Proof. apply handler_ext; apply param_insert_empty. Qed.

(** *** The three outcomes *)

Lemma check_org_code (query : Query) (e : Error) :
  In e (check_org query) -> code e = "wrong_org_param".
Proof.
  unfold check_org. destruct (param query "org"); [| intros []].
  intros [H | H]%in_app_or; apply In_push_if in H as [_ ->]; reflexivity.
Qed.

Lemma check_updated_at_code (query : Query) (e : Error) :
  In e (check_updated_at query) -> code e = "wrong_updated_at_param".
Proof.
  unfold check_updated_at. destruct (param query "updated_at"); [| intros []].
  intros [H | H]%in_app_or; apply In_push_if in H as [_ ->]; reflexivity.
Qed.

(** X9. A 400 response carries exactly the errors of the validation, at
    least one, and each has one of the four kinds of code. *)
Theorem bad_request_errors (query : Query) (errors : list Error) :
  handler query = status_400_json errors ->
  errors = validate query
  /\ errors <> []
  /\ Forall (fun e =>
               code e = "wrong_org_param"
               \/ code e = "wrong_around_param"
               \/ String.prefix "wrong_country_param/" (code e) = true
               \/ code e = "wrong_updated_at_param") errors.
Proof.
  intros H.
  assert (E : errors = validate query /\ errors <> []).
  { unfold handler in H. destruct (validate query) as [| e l]; simpl in H.
    - destruct (fetch query) as [events |]; [| discriminate H].
      destruct (Raw.items events) as [items |]; [| discriminate H].
      destruct (project_all items); discriminate H.
    - injection H as <-. split; [reflexivity | discriminate]. }
  destruct E as [E N]. repeat split; [exact E | exact N |].
  apply List.Forall_forall. intros e. rewrite E. unfold validate.
  rewrite !in_app_iff. intros [Hin | [Hin | [Hin | Hin]]].
  - left. eapply check_org_code, Hin.
  - right. left. eapply check_around_code, Hin.
  - right. right. left. eapply check_country_prefix, Hin.
  - right. right. right. eapply check_updated_at_code, Hin.
Qed.

Lemma project_all_None (items : list Raw.Object) :
  project_all items = None
  <-> exists object, In object items /\ Raw.metadata object = None.
Proof.
  induction items as [| o items IH]; simpl.
  - split; [discriminate | intros (? & [] & _)].
  - unfold project at 1. destruct (Raw.metadata o) as [m |] eqn:M.
    + destruct (project_all items) as [data |].
      * split; [discriminate |].
        intros (x & [<- | Hin] & Hx).
        -- rewrite M in Hx. discriminate Hx.
        -- destruct IH as [_ IH].
           assert (N : @None (list Event.t) = None) by reflexivity.
           specialize (IH (ex_intro _ x (conj Hin Hx))). discriminate IH.
      * split; [| reflexivity].
        intros _. destruct IH as [IH _].
        destruct (IH eq_refl) as (x & Hin & Hx).
        exists x. split; [right; exact Hin | exact Hx].
    + split; [| reflexivity].
      intros _. exists o. split; [left; reflexivity | exact M].
Qed.

(** X10. The response is a 500 exactly when the request passes the
    validation and either the store does not answer or one of the listed
    objects has no metadata: a single such object fails the whole
    request. *)
Theorem server_error_iff (query : Query) :
  handler query = sendStatus_500
  <-> validate query = []
      /\ (fetch query = None
          \/ exists events object,
               fetch query = Some events
               /\ In object (listed events)
               /\ Raw.metadata object = None).
Proof.
  unfold handler, listed. destruct (validate query) as [| e l]; simpl.
  - destruct (fetch query) as [events |].
    + destruct (Raw.items events) as [items |] eqn:I.
      * destruct (project_all items) as [data |] eqn:P.
        -- split; [discriminate |].
           intros [_ [H | (ev & o & [= <-] & Hin & Hm)]]; [discriminate H |].
           rewrite I in Hin.
           assert (N : project_all items = None).
           { apply project_all_None. exists o. split; assumption. }
           rewrite N in P. discriminate P.
        -- split; [| reflexivity].
           intros _. split; [reflexivity |]. right.
           apply project_all_None in P as (o & Hin & Hm).
           exists events, o. rewrite I. repeat split; assumption.
      * split; [discriminate |].
        intros [_ [H | (ev & o & [= <-] & Hin & _)]]; [discriminate H |].
        rewrite I in Hin. destruct Hin.
    + split; [| reflexivity]. intros _. split; [reflexivity | left; reflexivity].
  - split; [discriminate | intros [H _]; discriminate H].
Qed.

(** *** What the response is made of *)

Lemma In_filter_around_origin (query : Query) (data : list Event.t) (e : Event.t) :
  In e (filter_around query data) ->
  exists e0, In e0 data /\ (e = e0 \/ exists d, e = Event.set_distance e0 d).
Proof.
  unfold filter_around. destruct (param query "around") as [s |].
  - rewrite filter_In, in_map_iff. intros [(e0 & <- & Hin) _].
    exists e0. split; [exact Hin |]. right. eexists. reflexivity.
  - intros Hin. exists e. split; [exact Hin | left; reflexivity].
Qed.

Lemma In_pipeline_origin (query : Query) (data : list Event.t) (e : Event.t) :
  In e (pipeline query data) ->
  exists e0,
    In e0 (filter_updated_after query (filter_country query data))
    /\ (e = e0 \/ exists d, e = Event.set_distance e0 d).
Proof.
  unfold pipeline. intros Hin%In_sortBy.
  exact (In_filter_around_origin query _ _ Hin).
Qed.

Lemma flat_map_nil {A B : Type} (f : A -> list B) (l : list A) :
  flat_map f l = [] -> forall x, In x l -> f x = [].
Proof.
  induction l as [| a l IH]; simpl; intros H x; [intros [] |].
  apply app_eq_nil in H as [Ha Hl].
  intros [<- | Hin]; [exact Ha | apply IH; assumption].
Qed.

Lemma validate_nil (query : Query) :
  validate query = [] ->
  check_org query = [] /\ check_around query = []
  /\ check_country query = [] /\ check_updated_at query = [].
Proof.
  unfold validate. intros H.
  apply app_eq_nil in H as [Ho H].
  apply app_eq_nil in H as [Ha H].
  apply app_eq_nil in H as [Hc Hu]. auto.
Qed.

(** X11. When [country] is given, every event of a 200 response carries
    a country that is one of the requested codes, letter for letter, and
    that code passed the three rules; an event without a country is never
    returned. *)
Theorem returned_country_requested (query : Query) (s : string)
    (result : list Event.t) :
  param query "country" = Some s ->
  handler query = json result ->
  forall e, In e result ->
    exists c, Event.country e = Some c
              /\ In c (JS.split "," s)
              /\ check_country_code c = [].
Proof.
  intros Hp (V & events & data & _ & _ & ->)%handler_json_inv e Hin.
  apply In_pipeline_origin in Hin as (e0 & Hin & He).
  apply filter_updated_after_In in Hin.
  unfold filter_country in Hin. rewrite Hp in Hin.
  apply filter_In in Hin as [_ Hc].
  assert (Ec : Event.country e = Event.country e0)
    by (destruct He as [-> | [d ->]]; reflexivity).
  rewrite Ec. unfold includes_country in Hc.
  destruct (Event.country e0) as [c |]; [| discriminate Hc].
  apply existsb_exists in Hc as (x & Hx & Heq).
  apply String.eqb_eq in Heq. subst x.
  exists c. repeat split; [exact Hx |].
  apply validate_nil in V as (_ & _ & Vc & _).
  unfold check_country in Vc. rewrite Hp in Vc.
  apply (flat_map_nil _ _ Vc c Hx).
Qed.

(** *** The ranking of numbers *)

Lemma SFcompare_refl (x : JS.number) :
  JS.is_nan x = false -> SFcompare x x = Some Eq.
Proof.
  intros N. destruct (SFcompare_total x x N N) as [c E].
  pose proof (SFcompare_antisym _ _ _ E) as E'. rewrite E in E'.
  destruct c; [exact E | discriminate E' | discriminate E'].
Qed.

Lemma compareMultiple_numbers {A : Type} (x y : JS.number) (i j : nat) (v w : A) :
  JS.is_nan x = false -> JS.is_nan y = false ->
  ((Lodash.compareMultiple (Lodash.Build_entry (JS.num x) i v)
                           (Lodash.Build_entry (JS.num y) j w) <=? 0) = true ->
   JS.leb x y = true)
  /\ ((Lodash.compareMultiple (Lodash.Build_entry (JS.num x) i v)
                              (Lodash.Build_entry (JS.num y) j w) <=? 0) = false ->
      JS.leb y x = true).
Proof.
  intros Nx Ny. destruct (SFcompare_total x y Nx Ny) as [c E].
  pose proof (SFcompare_antisym _ _ _ E) as E'.
  pose proof (SFcompare_refl x Nx) as Rx.
  pose proof (SFcompare_refl y Ny) as Ry.
  unfold Lodash.compareMultiple, Lodash.compareAscending, Lodash.isReflexive,
    Lodash.strict_ne, Lodash.isDefined, JS.gt, JS.lt, JS.ltb, JS.leb,
    SFltb, SFleb, SFeqb.
  cbn [Lodash.criteria Lodash.index JS.ToNumber].
  rewrite E, E', Rx, Ry.
  destruct c; cbn; split; intros H; first [reflexivity | discriminate H].
Qed.

Lemma compareMultiple_entries {A : Type} (a b : Lodash.entry A) :
  (exists d, Lodash.criteria a = JS.num d /\ JS.is_nan d = false) ->
  (exists d, Lodash.criteria b = JS.num d /\ JS.is_nan d = false) ->
  ((Lodash.compareMultiple a b <=? 0) = true ->
   JS.le (Lodash.criteria a) (Lodash.criteria b) = true)
  /\ ((Lodash.compareMultiple a b <=? 0) = false ->
      JS.le (Lodash.criteria b) (Lodash.criteria a) = true).
Proof.
  destruct a as [ca ia va], b as [cb ib vb]. cbn [Lodash.criteria].
  intros (x & -> & Nx) (y & -> & Ny).
  apply (compareMultiple_numbers x y ia ib va vb Nx Ny).
Qed.

Lemma insert_Sorted {A : Type} (x : Lodash.entry A) (l : list (Lodash.entry A)) :
  (forall en, In en (x :: l) ->
     exists d, Lodash.criteria en = JS.num d /\ JS.is_nan d = false) ->
  Sorted (fun a b => JS.le (Lodash.criteria a) (Lodash.criteria b) = true) l ->
  Sorted (fun a b => JS.le (Lodash.criteria a) (Lodash.criteria b) = true)
         (Lodash.insert Lodash.compareMultiple x l).
Proof.
  induction l as [| y l IH]; intros Hn Hs; simpl.
  - constructor; constructor.
  - assert (Nx := Hn x (or_introl eq_refl)).
    assert (Ny := Hn y (or_intror (or_introl eq_refl))).
    destruct (compareMultiple_entries x y Nx Ny) as [Cle Cgt].
    destruct (Lodash.compareMultiple x y <=? 0) eqn:C.
    + constructor; [exact Hs |]. constructor. apply Cle. reflexivity.
    + apply Sorted_inv in Hs as [Hs Hd].
      constructor.
      * apply IH; [| exact Hs].
        intros en [<- | Hin]; apply Hn; [left; reflexivity | right; right; exact Hin].
      * destruct l as [| z l']; simpl.
        -- constructor. apply Cgt. reflexivity.
        -- destruct (Lodash.compareMultiple x z <=? 0).
           ++ constructor. apply Cgt. reflexivity.
           ++ constructor. apply HdRel_inv in Hd. exact Hd.
Qed.

Lemma sort_Sorted {A : Type} (l : list (Lodash.entry A)) :
  (forall en, In en l ->
     exists d, Lodash.criteria en = JS.num d /\ JS.is_nan d = false) ->
  Sorted (fun a b => JS.le (Lodash.criteria a) (Lodash.criteria b) = true)
         (Lodash.sort Lodash.compareMultiple l).
Proof.
  induction l as [| x l IH]; intros Hn; simpl; [constructor |].
  apply insert_Sorted.
  - intros en [<- | Hin]; apply Hn; [left; reflexivity |].
    right. apply (In_sort Lodash.compareMultiple), Hin.
  - apply IH. intros en Hin. apply Hn. right. exact Hin.
Qed.

Lemma In_entries {A : Type} (key : A -> JS.value) (i : nat) (l : list A)
    (en : Lodash.entry A) :
  In en (Lodash.entries key i l) ->
  Lodash.criteria en = key (Lodash.value en) /\ In (Lodash.value en) l.
Proof.
  revert i. induction l as [| v l IH]; intros i; simpl; [intros [] |].
  intros [<- | Hin]; [split; [reflexivity | left; reflexivity] |].
  destruct (IH _ Hin) as [Hc Hv]. split; [exact Hc | right; exact Hv].
Qed.

Lemma Sorted_map_value {A : Type} (key : A -> JS.value) (l : list (Lodash.entry A)) :
  (forall en, In en l -> Lodash.criteria en = key (Lodash.value en)) ->
  Sorted (fun a b => JS.le (Lodash.criteria a) (Lodash.criteria b) = true) l ->
  Sorted (fun a b => JS.le (key a) (key b) = true) (map Lodash.value l).
Proof.
  intros Hk Hs. induction Hs as [| a l Hs IH Hd]; simpl; [constructor |].
  constructor.
  - apply IH. intros en Hin. apply Hk. right. exact Hin.
  - destruct Hd as [| b l' Hab]; simpl; constructor.
    rewrite <- (Hk a), <- (Hk b); [exact Hab | right; left | left]; reflexivity.
Qed.

(** [sortBy] on keys that are numbers other than NaN returns its elements
    in ascending order of their keys. *)
Lemma sortBy_Sorted {A : Type} (key : A -> JS.value) (l : list A) :
  (forall x, In x l -> exists d, key x = JS.num d /\ JS.is_nan d = false) ->
  Sorted (fun a b => JS.le (key a) (key b) = true) (Lodash.sortBy l key).
Proof.
  intros Hn. unfold Lodash.sortBy.
  apply Sorted_map_value.
  - intros en Hin%In_sort. apply (In_entries key 0 l en Hin).
  - apply sort_Sorted. intros en Hin.
    destruct (In_entries key 0 l en Hin) as [Hc Hv].
    rewrite Hc. apply Hn, Hv.
Qed.

(** *** Nothing is added to the listing *)

Lemma length_insert {A : Type} (comparer : A -> A -> Z) (x : A) (l : list A) :
  length (Lodash.insert comparer x l) = S (length l).
Proof.
  induction l as [| y l IH]; simpl; [reflexivity |].
  destruct (comparer x y <=? 0); simpl; [reflexivity | now rewrite IH].
Qed.

Lemma length_sortBy {A : Type} (key : A -> JS.value) (l : list A) :
  length (Lodash.sortBy l key) = length l.
Proof.
  unfold Lodash.sortBy. rewrite length_map.
  rewrite <- (map_value_entries key 0 l) at 2. rewrite length_map.
  induction (Lodash.entries key 0 l) as [| en es IH]; simpl; [reflexivity |].
  now rewrite length_insert, IH.
Qed.

Lemma length_List_filter {A : Type} (f : A -> bool) (l : list A) :
  (length (List.filter f l) <= length l)%nat.
Proof.
  induction l as [| x l IH]; simpl; [lia |].
  destruct (f x); simpl; lia.
Qed.

Lemma length_pipeline (query : Query) (data : list Event.t) :
  (length (pipeline query data) <= length data)%nat.
Proof.
  unfold pipeline. rewrite length_sortBy.
  assert (Hc : (length (filter_country query data) <= length data)%nat).
  { unfold filter_country. destruct (param query "country"); [| lia].
    apply length_List_filter. }
  assert (Hu : (length (filter_updated_after query (filter_country query data))
                <= length (filter_country query data))%nat).
  { unfold filter_updated_after.
    destruct (param query "updated_after"); [| lia].
    apply length_List_filter. }
  unfold filter_around. destruct (param query "around"); [| lia].
  etransitivity; [apply length_List_filter |].
  rewrite length_map. lia.
Qed.

Lemma project_all_In (items : list Raw.Object) (data : list Event.t) (e0 : Event.t) :
  project_all items = Some data ->
  In e0 data ->
  exists object, In object items /\ project object = Some e0.
Proof.
  intros H%project_all_Forall2.
  induction H as [| o e items data Hp _ IH]; simpl; [intros [] |].
  intros [<- | Hin].
  - exists o. split; [left; reflexivity | exact Hp].
  - destruct (IH Hin) as (x & Hx & Hpx). exists x. split; [right |]; assumption.
Qed.

(** X13. A 200 response returns nothing that was not listed: it has at
    most as many events as the store listed objects, and each event is the
    projection of a listed object, changed at most by the distance stored
    on it. *)
Theorem returned_events_are_listed (query : Query) (result : list Event.t) :
  handler query = json result ->
  exists events,
    fetch query = Some events
    /\ (length result <= length (listed events))%nat
    /\ forall e, In e result ->
         exists object e0,
           In object (listed events)
           /\ project object = Some e0
           /\ (e = e0 \/ exists d, e = Event.set_distance e0 d).
Proof.
  intros (_ & events & data & F & P & ->)%handler_json_inv.
  exists events. split; [exact F |]. split.
  - etransitivity; [apply length_pipeline |].
    apply project_all_Forall2, Forall2_length in P. lia.
  - intros e (e0 & Hin & He)%In_pipeline_origin.
    apply filter_updated_after_In, filter_country_In in Hin.
    destruct (project_all_In _ _ _ P Hin) as (o & Ho & Hp).
    exists o, e0. auto.
Qed.

Lemma ltb_zero (d : JS.number) (r : JS.number) :
  SFeqb r (JS.of_Z 0) = true -> JS.ltb d r = JS.ltb d (JS.of_Z 0).
Proof.
  destruct r as [b | b | | b m e]; try (destruct b); intros H;
    try discriminate H; destruct d as [[] | [] | | [] ? ?]; reflexivity.
Qed.

(** X14. A radius equal to 0 keeps no event whose distance is not
    negative: with a distance that is never below 0, the result of such a
    request is empty. *)
Theorem radius_zero_keeps_nothing (query : Query) (s lon lat radius : string)
    (data : list Event.t) :
  param query "around" = Some s ->
  JS.split "," s = [lon; lat; radius] ->
  SFeqb (JS.StringToNumber radius) (JS.of_Z 0) = true ->
  (forall e, In e data ->
     JS.ltb (distance (JS.str lon, JS.str lat)
                      (Event.longitude e, Event.latitude e))
            (JS.of_Z 0) = false) ->
  pipeline query data = [].
Proof.
  intros Hp Hs Hr Hd. unfold pipeline, filter_around at 1. rewrite Hp, Hs.
  rewrite List_filter_none; [reflexivity |].
  intros e (e0 & <- & Hin)%in_map_iff.
  apply filter_updated_after_In, filter_country_In in Hin.
  unfold within_distance, with_distance.
  cbn [Event.distance Event.set_distance JS.prop]. rewrite lt_num_l.
  change (JS.ToNumber (JS.index JS.str [lon; lat; radius] 2%nat))
    with (JS.StringToNumber radius).
  change (JS.index JS.str [lon; lat; radius] 0%nat) with (JS.str lon).
  change (JS.index JS.str [lon; lat; radius] 1%nat) with (JS.str lat).
  rewrite (ltb_zero _ _ Hr). apply Hd, Hin.
Qed.

(** *** The order of the filters *)

Lemma List_filter_comm {A : Type} (f g : A -> bool) (l : list A) :
  List.filter f (List.filter g l) = List.filter g (List.filter f l).
Proof.
  induction l as [| x l IH]; simpl; [reflexivity |].
  destruct (f x) eqn:F, (g x) eqn:G; simpl; rewrite ?F, ?G, IH; reflexivity.
Qed.

Lemma List_filter_map {A B : Type} (f : B -> bool) (g : A -> B) (l : list A) :
  List.filter f (map g l) = map g (List.filter (fun a => f (g a)) l).
Proof.
  induction l as [| x l IH]; simpl; [reflexivity |].
  destruct (f (g x)); simpl; rewrite IH; reflexivity.
Qed.

Lemma filter_around_filter (query : Query) (f : Event.t -> bool)
    (data : list Event.t) :
  (forall e d, f (Event.set_distance e d) = f e) ->
  filter_around query (List.filter f data)
  = List.filter f (filter_around query data).
Proof.
  intros Hf. unfold filter_around.
  destruct (param query "around") as [s |]; [| reflexivity].
  rewrite List_filter_comm, (List_filter_map f).
  do 2 f_equal. apply filter_ext. intros e. symmetry. apply Hf.
Qed.

(** X15. The order of the three filters does not matter: the country
    and recency filters can be exchanged, and the proximity filter can be
    run before either of them, with the same events in the same order. *)
Theorem filters_commute (query : Query) (data : list Event.t) :
  filter_country query (filter_updated_after query data)
  = filter_updated_after query (filter_country query data)
  /\ filter_around query (filter_country query data)
     = filter_country query (filter_around query data)
  /\ filter_around query (filter_updated_after query data)
     = filter_updated_after query (filter_around query data).
Proof.
  repeat split.
  - unfold filter_country, filter_updated_after.
    destruct (param query "country"), (param query "updated_after");
      try reflexivity.
    apply List_filter_comm.
  - unfold filter_country.
    destruct (param query "country"); [| reflexivity].
    apply filter_around_filter. reflexivity.
  - unfold filter_updated_after.
    destruct (param query "updated_after"); [| reflexivity].
    apply filter_around_filter. reflexivity.
Qed.

(** X16. [org] only selects the listing: it is no filter of its own, so
    two requests that pass the validation, differ in [org] alone and are
    answered the same listing get the same response. *)
Theorem org_only_selects_listing (query : Query) (v : string) :
  validate query = [] ->
  validate (<[ "org" := v ]> query) = [] ->
  fetch (<[ "org" := v ]> query) = fetch query ->
  handler (<[ "org" := v ]> query) = handler query.
Proof.
  intros V V' F. apply handler_pipeline_ext.
  - rewrite V, V'. reflexivity.
  - exact F.
  - intros data. apply pipeline_ext; apply param_insert_ne; discriminate.
Qed.

(** *** The order of numbers is transitive *)

Lemma lex_trans (e1 e2 e3 : Z) (m1 m2 m3 : positive) (c1 c2 : comparison) :
  match e1 ?= e2 with
  | Lt => Lt | Gt => Gt | Eq => Pos.compare_cont Eq m1 m2
  end = c1 ->
  match e2 ?= e3 with
  | Lt => Lt | Gt => Gt | Eq => Pos.compare_cont Eq m2 m3
  end = c2 ->
  c1 <> Gt -> c2 <> Gt ->
  exists c3,
    match e1 ?= e3 with
    | Lt => Lt | Gt => Gt | Eq => Pos.compare_cont Eq m1 m3
    end = c3
    /\ c3 <> Gt /\ (c1 = Lt \/ c2 = Lt -> c3 = Lt).
Proof.
  change (Pos.compare_cont Eq m1 m2) with (Pos.compare m1 m2).
  change (Pos.compare_cont Eq m2 m3) with (Pos.compare m2 m3).
  change (Pos.compare_cont Eq m1 m3) with (Pos.compare m1 m3).
  intros <- <- H1 H2. eexists. split; [reflexivity |].
  revert H1 H2.
  destruct (Z.compare_spec e1 e2), (Z.compare_spec e2 e3), (Z.compare_spec e1 e3);
    try order_case;
    destruct (Pos.compare_spec m1 m2), (Pos.compare_spec m2 m3),
             (Pos.compare_spec m1 m3);
    order_case.
Qed.

Lemma lex_trans_neg (e1 e2 e3 : Z) (m1 m2 m3 : positive) (c1 c2 : comparison) :
  match e1 ?= e2 with
  | Lt => Gt | Gt => Lt | Eq => CompOpp (Pos.compare_cont Eq m1 m2)
  end = c1 ->
  match e2 ?= e3 with
  | Lt => Gt | Gt => Lt | Eq => CompOpp (Pos.compare_cont Eq m2 m3)
  end = c2 ->
  c1 <> Gt -> c2 <> Gt ->
  exists c3,
    match e1 ?= e3 with
    | Lt => Gt | Gt => Lt | Eq => CompOpp (Pos.compare_cont Eq m1 m3)
    end = c3
    /\ c3 <> Gt /\ (c1 = Lt \/ c2 = Lt -> c3 = Lt).
Proof.
  change (Pos.compare_cont Eq m1 m2) with (Pos.compare m1 m2).
  change (Pos.compare_cont Eq m2 m3) with (Pos.compare m2 m3).
  change (Pos.compare_cont Eq m1 m3) with (Pos.compare m1 m3).
  intros <- <- H1 H2. eexists. split; [reflexivity |].
  revert H1 H2.
  destruct (Z.compare_spec e1 e2), (Z.compare_spec e2 e3), (Z.compare_spec e1 e3);
    try order_case;
    destruct (Pos.compare_spec m1 m2), (Pos.compare_spec m2 m3),
             (Pos.compare_spec m1 m3);
    cbn [CompOpp]; order_case.
Qed.

(** Two comparisons in a row, neither of them "greater", compose; the
    result is "less" as soon as one of the two is. *)
Lemma SFcompare_trans (x y z : JS.number) (c1 c2 : comparison) :
  SFcompare x y = Some c1 -> SFcompare y z = Some c2 ->
  c1 <> Gt -> c2 <> Gt ->
  exists c3,
    SFcompare x z = Some c3 /\ c3 <> Gt /\ (c1 = Lt \/ c2 = Lt -> c3 = Lt).
Proof.
  destruct x as [sx | sx | | sx mx ex], y as [sy | sy | | sy my ey],
           z as [sz | sz | | sz mz ez];
    try discriminate;
    try (destruct sx); try (destruct sy); try (destruct sz);
    cbn [SFcompare];
    try (intros [= <-] [= <-];
         let P := fresh "P" in let Q := fresh "Q" in
         intros P Q; eexists; split; [reflexivity |]; revert P Q; order_case).
  - intros [= H1] [= H2] P Q.
    destruct (lex_trans_neg _ _ _ _ _ _ _ _ H1 H2 P Q) as (c3 & <- & R).
    eexists. split; [reflexivity | exact R].
  - intros [= H1] [= H2] P Q.
    destruct (lex_trans _ _ _ _ _ _ _ _ H1 H2 P Q) as (c3 & <- & R).
    eexists. split; [reflexivity | exact R].
Qed.

Lemma leb_compare (x y : JS.number) :
  JS.leb x y = true <-> exists c, SFcompare x y = Some c /\ c <> Gt.
Proof.
  unfold JS.leb, SFleb. destruct (SFcompare x y) as [[] |]; split;
    try (intros H; discriminate H).
  - intros _. eexists. split; [reflexivity | discriminate].
  - reflexivity.
  - intros _. eexists. split; [reflexivity | discriminate].
  - reflexivity.
  - intros (c & [= <-] & H). destruct H. reflexivity.
  - intros (c & H & _). discriminate H.
Qed.

Lemma ltb_compare (x y : JS.number) :
  JS.ltb x y = true <-> SFcompare x y = Some Lt.
Proof.
  unfold JS.ltb, SFltb. destruct (SFcompare x y) as [[] |]; split;
    intros H; first [reflexivity | discriminate H].
Qed.

Lemma leb_trans (x y z : JS.number) :
  JS.leb x y = true -> JS.leb y z = true -> JS.leb x z = true.
Proof.
  intros (c1 & E1 & N1)%leb_compare (c2 & E2 & N2)%leb_compare.
  destruct (SFcompare_trans x y z c1 c2 E1 E2 N1 N2) as (c3 & E3 & N3 & _).
  apply leb_compare. exists c3. split; assumption.
Qed.

Lemma ltb_leb_trans (x y z : JS.number) :
  JS.ltb x y = true -> JS.leb y z = true -> JS.ltb x z = true.
Proof.
  intros E1%ltb_compare (c2 & E2 & N2)%leb_compare.
  destruct (SFcompare_trans x y z Lt c2 E1 E2) as (c3 & E3 & _ & L);
    [discriminate | exact N2 |].
  apply ltb_compare. rewrite E3, L; [reflexivity | left; reflexivity].
Qed.

Lemma leb_ltb_trans (x y z : JS.number) :
  JS.leb x y = true -> JS.ltb y z = true -> JS.ltb x z = true.
Proof.
  intros (c1 & E1 & N1)%leb_compare E2%ltb_compare.
  destruct (SFcompare_trans x y z c1 Lt E1 E2) as (c3 & E3 & _ & L);
    [exact N1 | discriminate |].
  apply ltb_compare. rewrite E3, L; [reflexivity | right; reflexivity].
Qed.

Lemma by_distance_trans (a b c : Event.t) :
  by_distance a b -> by_distance b c -> by_distance a c.
Proof.
  unfold by_distance, distance_key.
  destruct (Event.distance a) as [x |], (Event.distance b) as [y |],
           (Event.distance c) as [z |]; cbn [JS.prop JS.le JS.ToNumber];
    try (intros H; discriminate H); try (intros _ H; discriminate H).
  - apply leb_trans.
  - intros _ H. destruct y; discriminate H.
Qed.

(** X12. When the proximity filter runs, every event of a 200 response
    is at most as far as every event that comes after it. *)
Theorem ranked_strongly_by_distance (query : Query) (s : string)
    (result : list Event.t) :
  param query "around" = Some s ->
  handler query = json result ->
  StronglySorted by_distance result.
Proof.
  intros Hp (_ & events & data & _ & _ & ->)%handler_json_inv.
  apply Sorted_StronglySorted.
  - intros a b c. apply by_distance_trans.
  - unfold pipeline. apply sortBy_Sorted.
    intros e. unfold filter_around. rewrite Hp.
    rewrite filter_In, in_map_iff. intros [(e0 & <- & _) Hw].
    unfold within_distance, with_distance in Hw.
    cbn [Event.distance Event.set_distance JS.prop] in Hw.
    rewrite lt_num_l in Hw.
    apply ltb_true_not_nan in Hw as [N _].
    eexists. split; [reflexivity | exact N].
Qed.

(** *** More and fewer events *)

Lemma In_filter_updated_after (query : Query) (s : string)
    (data : list Event.t) (e : Event.t) :
  param query "updated_after" = Some s ->
  In e (filter_updated_after query data)
  <-> In e data /\ JS.ltb (JS.StringToNumber s) (Event.updated_at e) = true.
Proof.
  intros Hp. unfold filter_updated_after. rewrite Hp.
  rewrite filter_In. unfold JS.gt. rewrite lt_num_r. reflexivity.
Qed.

Lemma filter_country_insert (query : Query) (name v : string)
    (data : list Event.t) :
  name <> "country" ->
  filter_country (<[ name := v ]> query) data = filter_country query data.
Proof.
  intros H. unfold filter_country. rewrite param_insert_ne by exact H.
  reflexivity.
Qed.

Lemma In_filter_around_mono (query : Query) (data data' : list Event.t)
    (e : Event.t) :
  (forall x, In x data -> In x data') ->
  In e (filter_around query data) -> In e (filter_around query data').
Proof.
  intros Hsub. unfold filter_around.
  destruct (param query "around") as [s |]; [| apply Hsub].
  rewrite !filter_In, !in_map_iff.
  intros [(e0 & He & Hin) Hw]. split; [| exact Hw].
  exists e0. split; [exact He | apply Hsub, Hin].
Qed.

(** X18. Raising [updated_after] never brings an event in: of two
    requests that differ only in this threshold, the one with the greater
    threshold returns only events that the other returns too. *)
Theorem raising_updated_after_keeps_fewer (query : Query) (s s' : string)
    (result result' : list Event.t) :
  param query "updated_after" = Some s ->
  s' <> "" ->
  JS.leb (JS.StringToNumber s) (JS.StringToNumber s') = true ->
  handler query = json result ->
  handler (<[ "updated_after" := s' ]> query) = json result' ->
  forall e, In e result' -> In e result.
Proof.
  intros Hp Hs' Hle (_ & events & data & F & P & ->)%handler_json_inv.
  intros (_ & events' & data' & F' & P' & ->)%handler_json_inv.
  rewrite fetch_insert_updated_after, F in F'. injection F' as <-.
  rewrite P in P'. injection P' as <-.
  assert (Hp' : param (<[ "updated_after" := s' ]> query) "updated_after"
                = Some s').
  { apply param_Some. split; [apply lookup_insert_eq | exact Hs']. }
  intros e. unfold pipeline. rewrite !In_sortBy.
  unfold filter_around at 1. rewrite param_insert_ne by discriminate.
  fold (filter_around query
          (filter_updated_after (<[ "updated_after" := s' ]> query)
             (filter_country (<[ "updated_after" := s' ]> query) data))).
  apply In_filter_around_mono. intros x.
  rewrite (In_filter_updated_after _ s' _ _ Hp').
  rewrite (In_filter_updated_after _ s _ _ Hp).
  rewrite filter_country_insert by discriminate.
  intros [Hin Hlt]. split; [exact Hin |].
  apply (leb_ltb_trans _ _ _ Hle Hlt).
Qed.

(** X19. Widening the radius never loses an event: of two accepted
    requests around the same origin that differ only in the radius, the
    one with the greater radius returns every event that the other
    returns. *)
Theorem widening_radius_keeps_more (query : Query)
    (s s' lon lat radius radius' : string) (result result' : list Event.t) :
  param query "around" = Some s ->
  JS.split "," s = [lon; lat; radius] ->
  JS.split "," s' = [lon; lat; radius'] ->
  JS.leb (JS.StringToNumber radius) (JS.StringToNumber radius') = true ->
  handler query = json result ->
  handler (<[ "around" := s' ]> query) = json result' ->
  forall e, In e result -> In e result'.
Proof.
  intros Hp Hs Hs' Hle (_ & events & data & F & P & ->)%handler_json_inv.
  intros (_ & events' & data' & F' & P' & ->)%handler_json_inv.
  rewrite (fetch_ext _ query) in F' by (apply param_insert_ne; discriminate).
  rewrite F in F'. injection F' as <-.
  rewrite P in P'. injection P' as <-.
  assert (Hp' : param (<[ "around" := s' ]> query) "around" = Some s').
  { apply param_Some. split; [apply lookup_insert_eq |].
    intros ->. discriminate Hs'. }
  intros e. unfold pipeline. rewrite !In_sortBy.
  rewrite (In_filter_around query s lon lat radius _ _ Hp Hs).
  rewrite (In_filter_around _ s' lon lat radius' _ _ Hp' Hs').
  unfold filter_updated_after, filter_country.
  rewrite !(param_insert_ne query _ "around") by discriminate.
  intros (e0 & Hin & He & Hlt). exists e0. repeat split; [exact Hin | exact He |].
  apply (ltb_leb_trans _ _ _ Hlt Hle).
Qed.

(** *** The ranking keeps every event once *)

Lemma insert_Permutation {A : Type} (comparer : A -> A -> Z) (x : A) (l : list A) :
  Permutation (Lodash.insert comparer x l) (x :: l).
Proof.
  induction l as [| y l IH]; simpl; [reflexivity |].
  destruct (comparer x y <=? 0); [reflexivity |].
  rewrite IH. apply perm_swap.
Qed.

Lemma sort_Permutation {A : Type} (comparer : A -> A -> Z) (l : list A) :
  Permutation (Lodash.sort comparer l) l.
Proof.
  induction l as [| x l IH]; simpl; [reflexivity |].
  rewrite insert_Permutation, IH. reflexivity.
Qed.

Lemma sortBy_Permutation {A : Type} (key : A -> JS.value) (l : list A) :
  Permutation (Lodash.sortBy l key) l.
Proof.
  unfold Lodash.sortBy.
  rewrite <- (map_value_entries key 0 l) at 2.
  apply Permutation_map, sort_Permutation.
Qed.

(** X20. The ranking only reorders: the events of a 200 response are,
    each as many times, the events that the three filters let through. *)
Theorem ranking_is_permutation (query : Query) (result : list Event.t) :
  handler query = json result ->
  exists events data,
    fetch query = Some events
    /\ project_all (listed events) = Some data
    /\ Permutation result
         (filter_around query
            (filter_updated_after query (filter_country query data))).
Proof.
  intros (_ & events & data & F & P & ->)%handler_json_inv.
  exists events, data. repeat split; [exact F | exact P |].
  unfold pipeline. apply sortBy_Permutation.
Qed.

(** *** The endpoint of an event *)

Lemma append_inj_r (p a b : string) : p +:+ a = p +:+ b -> a = b.
Proof.
  induction p as [| c p IH]; simpl; intros H; [exact H |].
  injection H as H. apply IH, H.
Qed.

(** X21. The endpoint of an event identifies the listed object it comes
    from: two objects with different names are never projected to events
    with the same endpoint. *)
Theorem endpoint_identifies_object (o1 o2 : Raw.Object) (e1 e2 : Event.t) :
  project o1 = Some e1 ->
  project o2 = Some e2 ->
  Event.endpoint e1 = Event.endpoint e2 ->
  Raw.name o1 = Raw.name o2.
Proof.
  unfold project.
  destruct (Raw.metadata o1); [| discriminate].
  destruct (Raw.metadata o2); [| discriminate].
  intros [= <-] [= <-]. cbn [Event.endpoint].
  intros H%append_inj_r%append_inj_r. exact H.
Qed.

End Handler.

(** ** The properties on the sample store *)

(** C1, as stated, fails: [country=FR,1,xyz] alone gives four errors, not
    the two length errors; among them the letter-presence error for ["1"]
    and the case error for ["xyz"]. *)
Lemma country_FR_1_xyz_not_two_errors :
  validate {[ "country" := "FR,1,xyz" ]}
    <> [country_not_2_long "1"; country_not_2_long "xyz"]
  /\ length (validate {[ "country" := "FR,1,xyz" ]}) = 4%nat
  /\ In (country_not_letters "1") (validate {[ "country" := "FR,1,xyz" ]})
  /\ In (country_not_uppercase "xyz") (validate {[ "country" := "FR,1,xyz" ]}).
Proof.
  assert (V : validate {[ "country" := "FR,1,xyz" ]} =
    [country_not_letters "1"; country_not_2_long "1";
     country_not_uppercase "xyz"; country_not_2_long "xyz"])
    by (vm_compute; reflexivity).
  rewrite V. repeat split.
  - discriminate.
  - left. reflexivity.
  - right. right. left. reflexivity.
Qed.

Lemma country_FR_1_xyz_witness :
  handler DateFns.parseISO Sample.store Sample.distance
    {[ "country" := "FR,1,xyz" ]}
  = status_400_json
      [country_not_letters "1"; country_not_2_long "1";
       country_not_uppercase "xyz"; country_not_2_long "xyz"].
Proof.
  apply (country_FR_1_xyz_errors DateFns.parseISO Sample.store Sample.distance
           {[ "country" := "FR,1,xyz" ]});
    vm_compute; reflexivity.
Defined.



(** [around=abc,100,5]: the parse error, the latitude error for the
    numeric second token, and no longitude error for the first. *)
Lemma around_not_numeric_witness :
  exists rest : list Error,
    check_around {[ "around" := "abc,100,5" ]} = around_not_3_numbers :: rest
    /\ ~ In around_longitude rest.
Proof.
  destruct (around_not_numeric {[ "around" := "abc,100,5" ]} "abc,100,5")
    as (rest & H & _ & Hlon & _).
  - by_evaluation.
  - left. by_evaluation.
  - exists rest. split; [exact H | apply Hlon; by_evaluation].
Defined.

Lemma errors_collected_witness :
  exists errors : list Error,
    handler DateFns.parseISO Sample.store Sample.distance
      (<[ "around" := "1,2" ]> {[ "country" := "fr" ]})
    = status_400_json errors
    /\ (exists e, In e errors /\ code e = "wrong_around_param")
    /\ (exists e, In e errors
                  /\ String.prefix "wrong_country_param/" (code e) = true).
Proof.
  destruct (errors_collected DateFns.parseISO Sample.store Sample.distance
              (<[ "around" := "1,2" ]> {[ "country" := "fr" ]}))
    as (errors & H & _ & _ & Ha & Hc).
  - vm_compute. discriminate.
  - vm_compute. discriminate.
  - exists errors. auto.
Defined.

(** [updated_after=1000] keeps the event updated at 1001 and drops the
    one updated at 1000. *)
Lemma updated_after_filter_witness :
  In (Sample.event_updated_at 1001)
     (filter_updated_after {[ "updated_after" := "1000" ]}
        [Sample.event_updated_at 1000; Sample.event_updated_at 1001])
  /\ ~ In (Sample.event_updated_at 1000)
         (filter_updated_after {[ "updated_after" := "1000" ]}
            [Sample.event_updated_at 1000; Sample.event_updated_at 1001]).
Proof.
  destruct (updated_after_filter {[ "updated_after" := "1000" ]} "1000"
              (JS.of_Z 1000)
              [Sample.event_updated_at 1000; Sample.event_updated_at 1001])
    as [K E].
  - by_evaluation.
  - by_evaluation.
  - split.
    + apply K. split; [right; left; reflexivity | by_evaluation].
    + apply E. by_evaluation.
Defined.

(** The threshold is not compared as text: as strings ["1001"] comes
    before ["999"], and yet [updated_after=999] keeps the event updated at
    1001. *)
Example updated_after_999_keeps_1001 :
  String.ltb "1001" "999" = true
  /\ filter_updated_after {[ "updated_after" := "999" ]}
       [Sample.event_updated_at 1001]
     = [Sample.event_updated_at 1001].
Proof. split; by_evaluation. Qed.

Lemma around_filter_witness :
  exists lon lat radius : string,
    JS.split "," "2.3522,48.8566,5" = [lon; lat; radius]
    /\ In (Event.set_distance (Sample.event_updated_at 0)
             (Sample.distance (JS.str lon, JS.str lat)
                (Event.longitude (Sample.event_updated_at 0),
                 Event.latitude (Sample.event_updated_at 0))))
          (pipeline Sample.distance {[ "around" := "2.3522,48.8566,5" ]}
             [Sample.event_updated_at 0]).
Proof.
  destruct (around_filter Sample.distance {[ "around" := "2.3522,48.8566,5" ]}
              "2.3522,48.8566,5")
    as (lon & lat & radius & Hs & K).
  - by_evaluation.
  - by_evaluation.
  - exists lon, lat, radius. split; [exact Hs |].
    destruct (K [Sample.event_updated_at 0]) as [Kin _].
    apply Kin. exists (Sample.event_updated_at 0).
    injection Hs as <- <- <-.
    split; [left; reflexivity | split; [reflexivity | by_evaluation]].
Defined.

Lemma no_around_keeps_order_witness :
  project_all DateFns.parseISO [Sample.paris; Sample.berlin]
    = Some [projected_paris; projected_berlin]
  /\ handler DateFns.parseISO Sample.store Sample.distance
       {[ "country" := "DE,FR" ]}
     = json [projected_paris; projected_berlin].
Proof.
  split; [by_evaluation |].
  assert (Hp : param {[ "country" := "DE,FR" ]} "around" = None)
    by by_evaluation.
  assert (V : validate {[ "country" := "DE,FR" ]} = []) by by_evaluation.
  assert (F : fetch Sample.store {[ "country" := "DE,FR" ]}
              = Some {| Raw.items := Some [Sample.paris; Sample.berlin] |})
    by by_evaluation.
  assert (P : project_all DateFns.parseISO
                (listed {| Raw.items := Some [Sample.paris; Sample.berlin] |})
              = Some [projected_paris; projected_berlin])
    by by_evaluation.
  destruct (no_around_keeps_order DateFns.parseISO Sample.store Sample.distance
              _ _ _ Hp V F P)
    as (H & _).
  rewrite H. by_evaluation.
Defined.


Lemma updated_after_not_validated_witness :
  handler DateFns.parseISO Sample.store Sample.distance
    (<[ "updated_after" := "abc" ]> {[ "country" := "FR" ]})
  = json [].
Proof.
  assert (V : validate {[ "country" := "FR" ]} = []) by by_evaluation.
  destruct (updated_after_not_validated DateFns.parseISO Sample.store
              Sample.distance {[ "country" := "FR" ]} "abc"
              ltac:(by_evaluation) V)
    as (_ & _ & H).
  apply (H {| Raw.items := Some [Sample.paris; Sample.berlin] |}
           [projected_paris; projected_berlin]);
    by_evaluation.
Defined.

(** ** Further properties on the sample store *)

(** X17. A request that fails the validation is answered without the
    store: the response is the same whatever the store, the date parser
    and the distance function are. *)
Theorem bad_request_without_store
    (parseISO parseISO' : string -> DateFns.Date)
    (got_get_json got_get_json' : string -> option Raw.Listing)
    (distance distance' : JS.value * JS.value -> JS.number * JS.number -> JS.number)
    (query : Query) :
  validate query <> [] ->
  handler parseISO got_get_json distance query
  = handler parseISO' got_get_json' distance' query.
Proof.
  intros V. rewrite !handler_rejects by exact V. reflexivity.
Qed.

Lemma bad_request_without_store_witness :
  handler DateFns.parseISO Sample.store Sample.distance {[ "country" := "fr" ]}
  = handler DateFns.parseISO Sample.unreachable_store Sample.distance
      {[ "country" := "fr" ]}.
Proof.
  apply bad_request_without_store. vm_compute. discriminate.
Defined.


(** [around=180,90,0]: the longitude 180, the latitude 90 and the radius
    0 are all accepted. *)
Lemma around_accepted_iff_witness :
  check_around {[ "around" := "180,90,0" ]} = [].
Proof.
  apply (around_accepted_iff {[ "around" := "180,90,0" ]} "180,90,0").
  - by_evaluation.
  - exists "180", "90", "0". repeat split; by_evaluation.
Defined.

Lemma updated_at_accepted_iff_witness :
  check_updated_at {[ "updated_at" := "0" ]} = [].
Proof.
  destruct (updated_at_accepted_iff {[ "updated_at" := "0" ]} "0") as [H _].
  - by_evaluation.
  - apply H. by_evaluation.
Defined.

Lemma updated_at_only_validated_witness :
  handler DateFns.parseISO Sample.store Sample.distance
    (<[ "updated_at" := "1577900000000" ]> {[ "country" := "FR" ]})
  = handler DateFns.parseISO Sample.store Sample.distance {[ "country" := "FR" ]}.
Proof.
  apply updated_at_only_validated; by_evaluation.
Defined.

Lemma unknown_parameter_ignored_witness :
  handler DateFns.parseISO Sample.store Sample.distance
    (<[ "page" := "2" ]> {[ "country" := "FR" ]})
  = handler DateFns.parseISO Sample.store Sample.distance {[ "country" := "FR" ]}.
Proof.
  apply unknown_parameter_ignored; discriminate.
Defined.

Lemma bad_request_errors_witness :
  [org_not_unique; org_not_lowercase] = validate {[ "org" := "Louvre,moma" ]}
  /\ [org_not_unique; org_not_lowercase] <> [].
Proof.
  destruct (bad_request_errors DateFns.parseISO Sample.store Sample.distance
              {[ "org" := "Louvre,moma" ]} [org_not_unique; org_not_lowercase])
    as (H1 & H2 & _).
  - by_evaluation.
  - split; assumption.
Defined.

Lemma returned_country_requested_witness :
  exists c, Event.country projected_paris = Some c
            /\ In c (JS.split "," "FR")
            /\ check_country_code c = [].
Proof.
  apply (returned_country_requested DateFns.parseISO Sample.store Sample.distance
           {[ "country" := "FR" ]} "FR" [projected_paris]).
  - by_evaluation.
  - by_evaluation.
  - left. reflexivity.
Defined.

Lemma ranked_strongly_by_distance_witness :
  exists result : list Event.t,
    handler DateFns.parseISO Sample.store Sample.distance
      {[ "around" := "13.405,52.52,5000" ]} = json result
    /\ length result = 2%nat
    /\ StronglySorted by_distance result.
Proof.
  destruct (handler DateFns.parseISO Sample.store Sample.distance
              {[ "around" := "13.405,52.52,5000" ]})
    as [errors | result |] eqn:E.
  - exfalso. vm_compute in E. discriminate E.
  - exists result. split; [reflexivity |]. split.
    + vm_compute in E. injection E as <-. reflexivity.
    + apply (ranked_strongly_by_distance DateFns.parseISO Sample.store
               Sample.distance
               {[ "around" := "13.405,52.52,5000" ]} "13.405,52.52,5000");
        [by_evaluation | exact E].
  - exfalso. vm_compute in E. discriminate E.
Defined.

Lemma returned_events_are_listed_witness :
  exists (result : list Event.t) (events : Raw.Listing),
    handler DateFns.parseISO Sample.store Sample.distance
      {[ "country" := "FR" ]} = json result
    /\ fetch Sample.store {[ "country" := "FR" ]} = Some events
    /\ (length result <= length (listed events))%nat.
Proof.
  destruct (returned_events_are_listed DateFns.parseISO Sample.store
              Sample.distance {[ "country" := "FR" ]} [projected_paris])
    as (events & F & L & _).
  - by_evaluation.
  - exists [projected_paris], events.
    split; [by_evaluation | split; assumption].
Defined.

Lemma radius_zero_keeps_nothing_witness :
  pipeline Sample.distance {[ "around" := "2.3522,48.8566,0" ]}
    [Sample.event_updated_at 0]
  = [].
Proof.
  apply (radius_zero_keeps_nothing Sample.distance
           {[ "around" := "2.3522,48.8566,0" ]} "2.3522,48.8566,0"
           "2.3522" "48.8566" "0").
  - by_evaluation.
  - by_evaluation.
  - by_evaluation.
  - intros e [<- | []]. by_evaluation.
Defined.

Lemma org_only_selects_listing_witness :
  handler DateFns.parseISO Sample.store Sample.distance
    (<[ "org" := "louvre" ]> {[ "country" := "FR" ]})
  = handler DateFns.parseISO Sample.store Sample.distance {[ "country" := "FR" ]}.
Proof.
  apply org_only_selects_listing; by_evaluation.
Defined.

(** [updated_after=5000] returns the first sample event only, which
    [updated_after=1000] returns as well. *)
Lemma raising_updated_after_keeps_fewer_witness :
  In projected_paris [projected_paris; projected_berlin].
Proof.
  apply (raising_updated_after_keeps_fewer DateFns.parseISO Sample.store
           Sample.distance {[ "updated_after" := "1000" ]} "1000" "5000"
           [projected_paris; projected_berlin] [projected_paris]).
  - by_evaluation.
  - discriminate.
  - by_evaluation.
  - by_evaluation.
  - by_evaluation.
  - left. reflexivity.
Defined.

(** The event found within 500 km is found within 5000 km as well. *)
Lemma widening_radius_keeps_more_witness :
  exists result' : list Event.t,
    handler DateFns.parseISO Sample.store Sample.distance
      {[ "around" := "2.3522,48.8566,5000" ]} = json result'
    /\ In (Event.set_distance projected_paris (JS.of_Z 0)) result'.
Proof.
  destruct (handler DateFns.parseISO Sample.store Sample.distance
              {[ "around" := "2.3522,48.8566,5000" ]})
    as [errors | result' |] eqn:E.
  - exfalso. vm_compute in E. discriminate E.
  - exists result'. split; [reflexivity |].
    apply (widening_radius_keeps_more DateFns.parseISO Sample.store
             Sample.distance {[ "around" := "2.3522,48.8566,500" ]}
             "2.3522,48.8566,500" "2.3522,48.8566,5000"
             "2.3522" "48.8566" "500" "5000"
             [Event.set_distance projected_paris (JS.of_Z 0)] result').
    + by_evaluation.
    + by_evaluation.
    + by_evaluation.
    + by_evaluation.
    + by_evaluation.
    + rewrite <- E. by_evaluation.
    + left. reflexivity.
  - exfalso. vm_compute in E. discriminate E.
Defined.

Lemma ranking_is_permutation_witness :
  exists (events : Raw.Listing) (data : list Event.t),
    fetch Sample.store {[ "country" := "FR" ]} = Some events
    /\ project_all DateFns.parseISO (listed events) = Some data
    /\ Permutation [projected_paris]
         (filter_around Sample.distance {[ "country" := "FR" ]}
            (filter_updated_after {[ "country" := "FR" ]}
               (filter_country {[ "country" := "FR" ]} data))).
Proof.
  apply (ranking_is_permutation DateFns.parseISO Sample.store Sample.distance
           {[ "country" := "FR" ]} [projected_paris]).
  by_evaluation.
Defined.

Lemma endpoint_identifies_object_witness :
  Raw.name Sample.paris = "louvre/expo.json".
Proof.
  apply (endpoint_identifies_object DateFns.parseISO Sample.paris
           {| Raw.name := "louvre/expo.json";
              Raw.metadata := Raw.metadata Sample.berlin;
              Raw.timeCreated := "";
              Raw.updated := "" |}
           projected_paris
           {| Event.title := Some "Altar";
              Event.endpoint := "https://api.malrot.org/v1/events/louvre/expo.json";
              Event.created_at := JS.NaN;
              Event.updated_at := JS.NaN;
              Event.country := Some "DE";
              Event.longitude := JS.StringToNumber "13.405";
              Event.latitude := JS.StringToNumber "52.52";
              Event.distance := None |});
    by_evaluation.
Defined.
